(** * BaseTree: the regression-tree weak learner of the xgboost package

    A shallow embedding of [src/xgboost/BaseTree.py] and the properties of
    its methods [train], [select_best_split], [split_dataset],
    [single_predict], [predict] and [score].

    Numbers.  The program computes on numpy scalars through [+], [-], [*],
    [/], [<], [>], [==], [str], [float] and the test [isinstance(., float)]
    that tells a leaf from a node.  The embedding is written over
    an interface [Numeric] that offers exactly these operations and assumes
    no law about them, so that every statement proved without an order or
    cancellation hypothesis holds for any arithmetic, IEEE doubles included.
    Where a property needs the order to be total (no NaN) or a sum to cancel
    exactly, the law is a named hypothesis of the theorem.  [Qnum] is the
    instance of exact rationals, on which the definitions evaluate.

    Effects.  Every method receives [self] and may assign its attributes and
    write to the module's logger; methods are computations of the monad [M]
    over a [world] made of the object and the log, and a Python exception is
    the outcome [Raise]. *)

From Stdlib Require Import String Ascii DecimalString.
From Stdlib Require Import ZArith QArith Bool Lia Lqa.
From Stdlib Require Import List Permutation Sorted.
Import ListNotations.

Set Implicit Arguments.

(* ================================================================== *)
(** ** The numeric interface *)
(* ================================================================== *)

Class Numeric (num : Type) : Type := {
  of_Z : Z -> num;               (* an integer literal: 0, 1, 2 *)
  of_nat : nat -> num;           (* a row count, as numpy's mean divides by it *)
  add : num -> num -> num;       (* a + b *)
  sub : num -> num -> num;       (* a - b *)
  mul : num -> num -> num;       (* a * b *)
  div : num -> num -> num;       (* a / b; numpy scalars do not raise *)
  neg : num -> num;              (* -a *)
  ltb : num -> num -> bool;      (* a < b *)
  eqb : num -> num -> bool;      (* a == b *)
  to_str : num -> string;        (* str(a) *)
  of_str : string -> option num; (* float(s); None is ValueError *)
  is_float : num -> bool         (* isinstance(a, float): true of a Python
                                    float and of a numpy.float64, false of
                                    a numpy.float32 and of an integer *)
}.

Section Model.

Context {num : Type} {N : Numeric num}.

Definition zero : num := of_Z 0.

(** [a > b] *)
Definition gtb (a b : num) : bool := ltb b a.

(** [a <= b], as a comparison of its own (it is not the negation of [>]
    on values that do not compare). *)
Definition leb (a b : num) : bool := ltb a b || eqb a b.

(** [numpy.power(x, n)] for a literal exponent. *)
Fixpoint pow (x : num) (n : nat) : num :=
  match n with
  | O => of_Z 1
  | S O => x
  | S m => mul (pow x m) x
  end.

(** [Series.sum()] and [ndarray.sum()]: the elements added up from 0.  The
    order in which numpy adds is not part of the source; no statement below
    depends on it. *)
Definition sum (l : list num) : num := fold_left add l zero.

(** [ndarray.mean()]: the sum over the count. *)
Definition mean (l : list num) : num := div (sum l) (of_nat (length l)).

(* ================================================================== *)
(** ** Exceptions and outcomes *)
(* ================================================================== *)

(** The exception classes.  [KeyError], [IndexError], [AttributeError] and
    [ValueError] are raised by the Python run time; [ConfigurationError] is
    the class the specification names, which no statement of the source
    raises. *)
Inductive exn : Type :=
| KeyError | IndexError | AttributeError | ValueError | ConfigurationError.

Inductive outcome (A : Type) : Type :=
| Return (a : A)
| Raise (e : exn)
| OutOfFuel.
Arguments Raise {A} e.
Arguments OutOfFuel {A}.

Definition obind {A B} (o : outcome A) (k : A -> outcome B) : outcome B :=
  match o with
  | Return a => k a
  | Raise e => Raise e
  | OutOfFuel => OutOfFuel
  end.

(* ================================================================== *)
(** ** Data: frames, label vectors, trees *)
(* ================================================================== *)

(** A pandas DataFrame: the column labels and the rows, each row holding
    one cell per column, in column order. *)
Record DataFrame : Type := {
  columns : list string;
  rows : list (list num)
}.

(** A pandas Series taken from a frame row ([X.iloc[i]]): label and value. *)
Definition Series : Type := list (string * num).

Fixpoint index_of (c : string) (cs : list string) : option nat :=
  match cs with
  | [] => None
  | c' :: cs' => if String.eqb c' c then Some O
                 else option_map S (index_of c cs')
  end.

(** [X[c]]: the column labelled [c], or KeyError.  Frames are rectangular,
    so the cell is there; [zero] stands where a row of the list is short. *)
Definition getitem (X : DataFrame) (c : string) : outcome (list num) :=
  match index_of c (columns X) with
  | None => Raise KeyError
  | Some i => Return (map (fun r => nth i r zero) (rows X))
  end.

(** Boolean-mask selection on a sequence: the elements at the positions
    where the mask is true, in order. *)
Fixpoint select {A} (mask : list bool) (l : list A) : list A :=
  match mask, l with
  | b :: mask', a :: l' => if b then a :: select mask' l' else select mask' l'
  | _, _ => []
  end.

(** [X[mask]] *)
Definition loc (X : DataFrame) (mask : list bool) : DataFrame :=
  {| columns := columns X; rows := select mask (rows X) |}.

(** [y[mask]] on an ndarray: IndexError unless the mask has y's length. *)
Definition take (y : list num) (mask : list bool) : outcome (list num) :=
  if Nat.eqb (length mask) (length y) then Return (select mask y)
  else Raise IndexError.

(** [X.shape[0]] *)
Definition shape0 (X : DataFrame) : nat := length (rows X).

(** [X.iloc[i]] *)
Definition iloc (X : DataFrame) (i : nat) : outcome Series :=
  match nth_error (rows X) i with
  | None => Raise IndexError
  | Some r => Return (combine (columns X) r)
  end.

(** [x[name]] on a Series. *)
Fixpoint series_get (x : Series) (name : string) : outcome num :=
  match x with
  | [] => Raise KeyError
  | (c, v) :: x' => if String.eqb c name then Return v else series_get x' name
  end.

(** [s.drop_duplicates()]: the first occurrence of every value is kept. *)
Fixpoint drop_duplicates_from (seen l : list num) : list num :=
  match l with
  | [] => []
  | x :: l' =>
      if existsb (fun s => eqb s x) seen then drop_duplicates_from seen l'
      else x :: drop_duplicates_from (x :: seen) l'
  end.

Definition drop_duplicates (l : list num) : list num :=
  drop_duplicates_from [] l.

(** [s.sort_values(ascending=True)], by insertion. *)
Fixpoint insert_sorted (x : num) (l : list num) : list num :=
  match l with
  | [] => [x]
  | y :: l' => if ltb x y then x :: y :: l' else y :: insert_sorted x l'
  end.

Fixpoint sort_values (l : list num) : list num :=
  match l with
  | [] => []
  | x :: l' => insert_sorted x (sort_values l')
  end.

(** The tree that [train] builds: a float, or the dict
    [{feature: {lkey: left, rkey: right}}] with its two keys in insertion
    order.  The threshold is stored only inside the key strings. *)
Inductive Tree : Type :=
| Leaf (value : num)
| Branch (feature : string) (lkey : string) (l : Tree)
         (rkey : string) (r : Tree).

Fixpoint height (t : Tree) : nat :=
  match t with
  | Leaf _ => O
  | Branch _ _ l _ r => S (Nat.max (height l) (height r))
  end.

(* ================================================================== *)
(** ** The object, the logger and the monad of methods *)
(* ================================================================== *)

(** The attributes of a [BaseTree] object.  The first five are assigned by
    [__init__]; the last four exist only once [train] has assigned them
    ([loss_func] is stored and never read by a method). *)
Record BaseTree : Type := {
  max_depth : Z;
  min_samples_split : Z;
  split_threshold : num;
  gamma : num;
  Lambda : num;
  self_feature_names : option (list string);
  self_G : option num;
  self_H : option num;
  self_tree : option Tree
}.

(** [BaseTree(max_depth, min_samples_split, split_threshold, gamma, Lambda)] *)
Definition init (md mss : Z) (st gm lam : num) : BaseTree :=
  {| max_depth := md; min_samples_split := mss; split_threshold := st;
     gamma := gm; Lambda := lam; self_feature_names := None;
     self_G := None; self_H := None; self_tree := None |}.

Definition set_feature_names (v : list string) (o : BaseTree) : BaseTree :=
  {| max_depth := max_depth o; min_samples_split := min_samples_split o;
     split_threshold := split_threshold o; gamma := gamma o;
     Lambda := Lambda o; self_feature_names := Some v;
     self_G := self_G o; self_H := self_H o; self_tree := self_tree o |}.

Definition set_G (v : num) (o : BaseTree) : BaseTree :=
  {| max_depth := max_depth o; min_samples_split := min_samples_split o;
     split_threshold := split_threshold o; gamma := gamma o;
     Lambda := Lambda o; self_feature_names := self_feature_names o;
     self_G := Some v; self_H := self_H o; self_tree := self_tree o |}.

Definition set_H (v : num) (o : BaseTree) : BaseTree :=
  {| max_depth := max_depth o; min_samples_split := min_samples_split o;
     split_threshold := split_threshold o; gamma := gamma o;
     Lambda := Lambda o; self_feature_names := self_feature_names o;
     self_G := self_G o; self_H := Some v; self_tree := self_tree o |}.

Definition set_tree (v : Tree) (o : BaseTree) : BaseTree :=
  {| max_depth := max_depth o; min_samples_split := min_samples_split o;
     split_threshold := split_threshold o; gamma := gamma o;
     Lambda := Lambda o; self_feature_names := self_feature_names o;
     self_G := self_G o; self_H := self_H o; self_tree := Some v |}.

Definition set_gamma (v : num) (o : BaseTree) : BaseTree :=
  {| max_depth := max_depth o; min_samples_split := min_samples_split o;
     split_threshold := split_threshold o; gamma := v;
     Lambda := Lambda o; self_feature_names := self_feature_names o;
     self_G := self_G o; self_H := self_H o; self_tree := self_tree o |}.

(** What the five [logger.info] calls of [train] report. *)
Inductive log_record : Type :=
| DepthReached (limit : Z)
| TooFewSamples (n : nat) (floor : Z)
| GainBelowThreshold (gain threshold : num)
| BestSplit (feature : string) (value gain : num)
| LossReduction (value : num).

Record world : Type := {
  self : BaseTree;
  logged : list log_record
}.

Definition M (A : Type) : Type := world -> outcome A * world.

Definition ret {A} (a : A) : M A := fun w => (Return a, w).

Definition bind {A B} (m : M A) (k : A -> M B) : M B :=
  fun w =>
    match m w with
    | (Return a, w') => k a w'
    | (Raise e, w') => (Raise e, w')
    | (OutOfFuel, w') => (OutOfFuel, w')
    end.

Definition lift {A} (o : outcome A) : M A := fun w => (o, w).

(** Reading an attribute of [self] that is always there. *)
Definition read {A} (field : BaseTree -> A) : M A :=
  fun w => (Return (field (self w)), w).

(** Reading an attribute that [train] creates: AttributeError before. *)
Definition attr {A} (field : BaseTree -> option A) : M A :=
  fun w =>
    match field (self w) with
    | Some a => (Return a, w)
    | None => (Raise AttributeError, w)
    end.

(** [self.name = v] *)
Definition assign (update : BaseTree -> BaseTree) : M unit :=
  fun w => (Return tt, {| self := update (self w); logged := logged w |}).

(** [logger.info(...)] *)
Definition info (r : log_record) : M unit :=
  fun w => (Return tt, {| self := self w; logged := logged w ++ [r] |}).

Notation "x <- m ;; k" := (bind m (fun x => k))
  (at level 61, m at next level, right associativity).

(** A [for] loop over a list with the loop-carried variables in [acc]. *)
Fixpoint for_each {A St} (l : list A) (body : St -> A -> M St) (acc : St)
    : M St :=
  match l with
  | [] => ret acc
  | a :: l' => acc' <- body acc a ;; for_each l' body acc'
  end.

(** A recorded candidate: [(candidate_feature, candidate_value, gain)]. *)
Definition candidate : Type := (string * num * num)%type.

Definition gain_of (c : candidate) : num := snd c.

(** The gain expression of [select_best_split], as the source writes it. *)
Definition gain_formula (G H lam G_l H_l G_r H_r : num) : num :=
  sub (add (div (pow G_l 2) (add H_l lam)) (div (pow G_r 2) (add H_r lam)))
      (div (pow G 2) (add H lam)).

(** [-self.Lambda not in (H_l, H_r, self.H)] *)
Definition guard (lam H_l H_r H : num) : bool :=
  negb (eqb (neg lam) H_l || eqb (neg lam) H_r || eqb (neg lam) H).

(** The body of the inner loop of [select_best_split]: one candidate value
    of one feature.  The loop-carried variables are [G_l], [H_l] and
    [gain_ls]. *)
Definition value_step (X : DataFrame) (candidate_feature : string)
    (acc : num * num * list candidate) (candidate_value : num)
    : M (num * num * list candidate) :=
  let '(G_l, H_l, gain_ls) := acc in
  col <- lift (getitem X candidate_feature) ;;
  gs <- lift (getitem (loc X (map (fun x => eqb x candidate_value) col))
                      "g"%string) ;;
  let G_l := add G_l (sum gs) in
  col <- lift (getitem X candidate_feature) ;;
  hs <- lift (getitem (loc X (map (fun x => eqb x candidate_value) col))
                      "h"%string) ;;
  let H_l := add H_l (sum hs) in
  G <- attr self_G ;;
  H <- attr self_H ;;
  let G_r := sub G G_l in
  let H_r := sub H H_l in
  lam <- read Lambda ;;
  H' <- attr self_H ;;
  if guard lam H_l H_r H' then
    lam <- read Lambda ;;
    G <- attr self_G ;;
    H <- attr self_H ;;
    ret (G_l, H_l,
         gain_ls ++ [(candidate_feature, candidate_value,
                      gain_formula G H lam G_l H_l G_r H_r)])
  else ret (G_l, H_l, gain_ls).

(** The body of the outer loop: one feature. *)
Definition feature_step (X : DataFrame) (gain_ls : list candidate)
    (candidate_feature : string) : M (list candidate) :=
  col <- lift (getitem X candidate_feature) ;;
  r <- for_each (sort_values (drop_duplicates col))
                (value_step X candidate_feature) (zero, zero, gain_ls) ;;
  ret (snd r).

(** The first half of [select_best_split]: the list [gain_ls]. *)
Definition candidates (X : DataFrame) : M (list candidate) :=
  names <- attr self_feature_names ;;
  for_each names (feature_step X) [].

(** [gain_ls[i]] *)
Definition list_get {A} (l : list A) (i : nat) : outcome A :=
  match nth_error l i with
  | Some a => Return a
  | None => Raise IndexError
  end.

(** The second half: the loop that keeps [best_index]. *)
Fixpoint best_index_loop (gain_ls : list candidate) (range : list nat)
    (best_index : nat) : outcome nat :=
  match range with
  | [] => Return best_index
  | i :: range' =>
      obind (list_get gain_ls i) (fun ci =>
      obind (list_get gain_ls best_index) (fun cb =>
      if gtb (gain_of ci) (gain_of cb)
      then best_index_loop gain_ls range' i
      else best_index_loop gain_ls range' best_index))
  end.

Definition pick_best (gain_ls : list candidate) : outcome candidate :=
  obind (best_index_loop gain_ls (seq 0 (length gain_ls)) 0)
        (fun best_index => list_get gain_ls best_index).

(** [select_best_split(self, X)] *)
Definition select_best_split (X : DataFrame) : M candidate :=
  gain_ls <- candidates X ;;
  lift (pick_best gain_ls).

(** [split_dataset(self, X, y, split_feature, split_value)] *)
Definition split_dataset (X : DataFrame) (y : list num)
    (split_feature : string) (split_value : num)
    : M ((DataFrame * list num) * (DataFrame * list num)) :=
  col <- lift (getitem X split_feature) ;;
  let group_index := map (fun x => gtb x split_value) col in
  let not_index := map negb group_index in
  yl <- lift (take y not_index) ;;
  yr <- lift (take y group_index) ;;
  ret ((loc X not_index, yl), (loc X group_index, yr)).

(** [self.tree = -self.G / (self.H + self.Lambda); return self.tree] *)
Definition emit_leaf : M Tree :=
  G <- attr self_G ;;
  H <- attr self_H ;;
  lam <- read Lambda ;;
  _ <- assign (set_tree (Leaf (div (neg G) (add H lam)))) ;;
  attr self_tree.

(** [train(self, X, y, depth)].  The recursion of the source is on [depth];
    [fuel] bounds the nesting of calls, and [train] below supplies as
    much as the depth limit makes the source use. *)
Fixpoint train_rec (fuel : nat) (X : DataFrame) (y : list num) (depth : Z)
    : M Tree :=
  match fuel with
  | O => fun w => (OutOfFuel, w)
  | S fuel' =>
    _ <- (if (depth =? 1)%Z
          then assign (set_feature_names
                         (firstn (length (columns X) - 2) (columns X)))
          else ret tt) ;;
    gs <- lift (getitem X "g"%string) ;;
    _ <- assign (set_G (sum gs)) ;;
    hs <- lift (getitem X "h"%string) ;;
    _ <- assign (set_H (sum hs)) ;;
    limit <- read max_depth ;;
    if (depth >? limit)%Z then
      limit <- read max_depth ;;
      _ <- info (DepthReached limit) ;;
      emit_leaf
    else
    floor <- read min_samples_split ;;
    if (Z.of_nat (shape0 X) <? floor)%Z then
      floor <- read min_samples_split ;;
      _ <- info (TooFewSamples (shape0 X) floor) ;;
      emit_leaf
    else
    best <- select_best_split X ;;
    let '(best_feature, best_value, gain) := best in
    threshold <- read split_threshold ;;
    if ltb gain threshold then
      threshold <- read split_threshold ;;
      _ <- info (GainBelowThreshold gain threshold) ;;
      emit_leaf
    else
    _ <- info (BestSplit best_feature best_value gain) ;;
    gm <- read gamma ;;
    let loss_reduction := sub (mul (div (of_Z 1) (of_Z 2)) gain) gm in
    _ <- info (LossReduction loss_reduction) ;;
    halves <- split_dataset X y best_feature best_value ;;
    let '(lhalf, rhalf) := halves in
    l <- train_rec fuel' (fst lhalf) (snd lhalf) (depth + 1)%Z ;;
    r <- train_rec fuel' (fst rhalf) (snd rhalf) (depth + 1)%Z ;;
    let tree := Branch best_feature (to_str best_value ++ "(l)")%string l
                       (to_str best_value ++ "(r)")%string r in
    _ <- assign (set_tree tree) ;;
    ret tree
  end.

(** The calls that a call at [depth] can nest when the limit is [limit]. *)
Definition calls_needed (limit depth : Z) : nat :=
  S (Z.to_nat (limit + 1 - depth)).

Definition train (X : DataFrame) (y : list num) (depth : Z) : M Tree :=
  fun w => train_rec (calls_needed (max_depth (self w)) depth) X y depth w.

(** [s.split('(')[0]] *)
Fixpoint before_paren (s : string) : string :=
  match s with
  | EmptyString => EmptyString
  | String c s' => if Ascii.eqb c "("%char then EmptyString
                   else String c (before_paren s')
  end.

(** [single_predict(self, x, tree)] for a tree that is not [None].  A
    scalar is returned when [isinstance(tree, float)] holds; any other
    scalar falls through to [tree.keys()], which a number does not have. *)
Fixpoint single_predict_in (x : Series) (tree : Tree) : outcome num :=
  match tree with
  | Leaf value => if is_float value then Return value
                  else Raise AttributeError
  | Branch feature_name lkey l _ r =>
      let split_value := before_paren lkey in
      obind (series_get x feature_name) (fun xv =>
      match of_str split_value with
      | None => Raise ValueError
      | Some threshold =>
          if gtb xv threshold then single_predict_in x r
          else single_predict_in x l
      end)
  end.

(** [single_predict(self, x, tree=None)] *)
Definition single_predict (x : Series) (tree : option Tree) : M num :=
  t <- match tree with
       | None => attr self_tree
       | Some t => ret t
       end ;;
  lift (single_predict_in x t).

(** [predict(self, X)] *)
Definition predict (X : DataFrame) : M (list num) :=
  for_each (seq 0 (shape0 X))
           (fun res i =>
              x <- lift (iloc X i) ;;
              v <- single_predict x None ;;
              ret (res ++ [v]))
           [].

(** [a - b] on two one-dimensional arrays, with numpy's broadcasting. *)
Definition array_sub (a b : list num) : outcome (list num) :=
  if Nat.eqb (length a) (length b)
  then Return (map (fun p => sub (fst p) (snd p)) (combine a b))
  else match a, b with
       | [a0], _ => Return (map (fun v => sub a0 v) b)
       | _, [b0] => Return (map (fun v => sub v b0) a)
       | _, _ => Raise ValueError
       end.

(** [score(self, X, y)] *)
Definition score (X : DataFrame) (y : list num) : M num :=
  y_pred <- predict X ;;
  d <- lift (array_sub y_pred y) ;;
  ret (mean (map (fun v => pow v 2) d)).

End Model.

Arguments Return {A} a.
Arguments Raise {A} e.
Arguments OutOfFuel {A}.
Arguments DataFrame num : clear implicits.
Arguments Series num : clear implicits.
Arguments Tree num : clear implicits.
Arguments BaseTree num : clear implicits.
Arguments log_record num : clear implicits.
Arguments world num : clear implicits.
Arguments M num A : clear implicits.
Arguments candidate num : clear implicits.

(* ================================================================== *)
(** ** Laws that some properties assume of the arithmetic *)
(* ================================================================== *)

(** The comparisons form a strict total order whose equality is [==]:
    what holds of numbers that all compare (no NaN among them). *)
Class TotalOrder (num : Type) {N : Numeric num} : Prop := {
  ltb_irrefl : forall a : num, ltb a a = false;
  ltb_trans : forall a b c : num,
      ltb a b = true -> ltb b c = true -> ltb a c = true;
  ltb_neg_trans : forall a b c : num,
      ltb a b = false -> ltb b c = false -> ltb a c = false;
  ltb_total : forall a b : num,
      ltb a b = false -> ltb b a = false -> eqb a b = true;
  eqb_sym : forall a b : num, eqb a b = eqb b a;
  eqb_not_ltb : forall a b : num, eqb a b = true -> ltb a b = false
}.

(** A sum is zero only when its terms are opposite. *)
Definition Cancellative (num : Type) {N : Numeric num} : Prop :=
  forall a b : num, eqb (add a b) zero = true -> eqb (neg b) a = true.

Arguments TotalOrder num {N}.
Arguments Cancellative num {N}.

(* ================================================================== *)
(** ** Vocabulary of the statements *)
(* ================================================================== *)

Section Vocabulary.

Context {num : Type} {N : Numeric num}.

(** The column [c] of [X] as a list (empty when [X] has no such column). *)
Definition column (X : DataFrame num) (c : string) : list num :=
  match getitem X c with
  | Return l => l
  | _ => []
  end.

(** [-G / (H + lam)] with [G] and [H] the sums of the columns [g] and [h]
    of [X]: the value of a leaf fitted on the rows of [X]. *)
Definition leaf_value (X : DataFrame num) (lam : num) : num :=
  div (neg (sum (column X "g"%string)))
      (add (sum (column X "h"%string)) lam).

(** The world once a call of [train] on [X] at [depth] has assigned
    [feature_names] (at depth 1 only), [G] and [H]. *)
Definition enter (X : DataFrame num) (depth : Z) (w : world num)
    : world num :=
  {| self :=
       set_H (sum (column X "h"%string))
         (set_G (sum (column X "g"%string))
            (if (depth =? 1)%Z
             then set_feature_names
                    (firstn (length (columns X) - 2) (columns X)) (self w)
             else self w));
     logged := logged w |}.

(** What a call that stops returns: the leaf, stored in [self.tree], after
    the log record of the rule that fired. *)
Definition stop (r : log_record num) (X : DataFrame num) (w : world num)
    : outcome (Tree num) * world num :=
  (Return (Leaf (leaf_value X (Lambda (self w)))),
   {| self := set_tree (Leaf (leaf_value X (Lambda (self w)))) (self w);
      logged := logged w ++ [r] |}).

(** The world after the two log records that precede a split. *)
Definition announce (f : string) (v gain : num) (w : world num)
    : world num :=
  {| self := self w;
     logged := logged w
               ++ [BestSplit f v gain;
                   LossReduction (sub (mul (div (of_Z 1) (of_Z 2)) gain)
                                      (gamma (self w)))] |}.

(** The node that [train] assembles from a split and two subtrees. *)
Definition node (f : string) (v : num) (l r : Tree num) : Tree num :=
  Branch f (to_str v ++ "(l)")%string l (to_str v ++ "(r)")%string r.

(** The rows of [X] that [split_dataset] sends right at the split
    [(f, v)], as a mask, and the two halves of [X]. *)
Definition right_mask (X : DataFrame num) (f : string) (v : num)
    : list bool :=
  map (fun x => gtb x v) (column X f).

Definition left_half (X : DataFrame num) (f : string) (v : num)
    : DataFrame num :=
  loc X (map negb (right_mask X f v)).

Definition right_half (X : DataFrame num) (f : string) (v : num)
    : DataFrame num :=
  loc X (right_mask X f v).

(** [fitted lam X t]: every leaf of [t] holds [-G / (H + lam)] with [G] and
    [H] summed over the rows of [X] that reach it, the rows of a node
    going left or right as [split_dataset] sends them. *)
Inductive fitted (lam : num) : DataFrame num -> Tree num -> Prop :=
| fitted_leaf (X : DataFrame num) : fitted lam X (Leaf (leaf_value X lam))
| fitted_node (X : DataFrame num) (f : string) (v : num) (l r : Tree num) :
    fitted lam (left_half X f v) l ->
    fitted lam (right_half X f v) r ->
    fitted lam X (node f v l r).

(** The cell of the row [r] of [X] in the column [c]. *)
Definition cell (X : DataFrame num) (c : string) (r : list num) : num :=
  match index_of c (columns X) with
  | Some i => nth i r zero
  | None => zero
  end.

(** [c] stands at position [i] of [gain_ls], no candidate of the list has
    a greater gain, and the gain of [c] is greater than the gain of every
    candidate before it: [c] is the first of the candidates of maximum
    gain. *)
Definition first_maximum (gain_ls : list (candidate num)) (i : nat)
    (c : candidate num) : Prop :=
  nth_error gain_ls i = Some c /\
  (forall j cj, nth_error gain_ls j = Some cj ->
                gtb (gain_of cj) (gain_of c) = false) /\
  (forall j cj, (j < i)%nat -> nth_error gain_ls j = Some cj ->
                gtb (gain_of c) (gain_of cj) = true).

(** The distinct values of the feature [f] in [X], in the order in which
    [select_best_split] visits them. *)
Definition values_of (X : DataFrame num) (f : string) : list num :=
  sort_values (drop_duplicates (column X f)).

(** The sum of the column [c] over the rows of [X] whose [f] is [== v]. *)
Definition value_sum (X : DataFrame num) (f c : string) (v : num) : num :=
  sum (column (loc X (map (fun x => eqb x v) (column X f))) c).

(** The left-side sum of the column [c] at the [k]-th distinct value of
    [f]: the sums of the values number 0 to [k], added in that order. *)
Definition left_sum (X : DataFrame num) (f c : string) (k : nat) : num :=
  fold_left add (map (value_sum X f c) (firstn (S k) (values_of X f))) zero.

(** The candidate split at the [k]-th distinct value of [f] is degenerate:
    [H_l], [H_r] or [H] is [== -lam]. *)
Definition degenerate (X : DataFrame num) (H lam : num) (f : string)
    (k : nat) : bool :=
  let H_l := left_sum X f "h"%string k in
  eqb (neg lam) H_l || eqb (neg lam) (sub H H_l) || eqb (neg lam) H.

(** The gain [G_l^2/(H_l+lam) + G_r^2/(H_r+lam) - G^2/(H+lam)]. *)
Definition gain_at (G H lam G_l H_l : num) : num :=
  let G_r := sub G G_l in
  let H_r := sub H H_l in
  sub (add (div (mul G_l G_l) (add H_l lam))
           (div (mul G_r G_r) (add H_r lam)))
      (div (mul G G) (add H lam)).

(** The candidate split at the [k]-th distinct value of [f]. *)
Definition candidate_at (X : DataFrame num) (G H lam : num) (f : string)
    (k : nat) : candidate num :=
  (f, nth k (values_of X f) zero,
   gain_at G H lam (left_sum X f "g"%string k) (left_sum X f "h"%string k)).

(** The candidates of one feature that are not degenerate, by ascending
    value; and those of a list of features, feature after feature. *)
Definition recorded_of (X : DataFrame num) (G H lam : num) (f : string)
    : list (candidate num) :=
  map (candidate_at X G H lam f)
      (filter (fun k => negb (degenerate X H lam f k))
              (seq 0 (length (values_of X f)))).

Definition recorded (X : DataFrame num) (G H lam : num)
    (names : list string) : list (candidate num) :=
  flat_map (recorded_of X G H lam) names.

(** The inner loop of [select_best_split] as a function of the running
    sums, for the invariant of the loop. *)
Fixpoint scan (X : DataFrame num) (G H lam : num) (f : string)
    (G_l H_l : num) (vs : list num) : list (candidate num) :=
  match vs with
  | [] => []
  | v :: vs' =>
      let G_l' := add G_l (value_sum X f "g"%string v) in
      let H_l' := add H_l (value_sum X f "h"%string v) in
      (if guard lam H_l' (sub H H_l') H
       then [(f, v, gain_formula G H lam G_l' H_l' (sub G G_l') (sub H H_l'))]
       else [])
      ++ scan X G H lam f G_l' H_l' vs'
  end.

(** The threshold of a node, read from the key of its left branch. *)
Definition threshold_of (lkey : string) : option num :=
  of_str (before_paren lkey).

(** [reaches x t v]: walking the tree [t] from its root with the row [x],
    to the right child where the row's value for the node's feature is
    greater than the node's threshold and to the left child otherwise,
    ends at a leaf of value [v]. *)
Inductive reaches (x : Series num) : Tree num -> num -> Prop :=
| reaches_leaf (v : num) : reaches x (Leaf v) v
| reaches_right (f lkey : string) (l : Tree num) (rkey : string)
    (r : Tree num) (threshold xv v : num) :
    threshold_of lkey = Some threshold ->
    series_get x f = Return xv ->
    gtb xv threshold = true ->
    reaches x r v ->
    reaches x (Branch f lkey l rkey r) v
| reaches_left (f lkey : string) (l : Tree num) (rkey : string)
    (r : Tree num) (threshold xv v : num) :
    threshold_of lkey = Some threshold ->
    series_get x f = Return xv ->
    gtb xv threshold = false ->
    reaches x l v ->
    reaches x (Branch f lkey l rkey r) v.

(** The rows of a frame predicted one after the other, in order. *)
Fixpoint predict_rows (cols : list string) (t : Tree num)
    (rs : list (list num)) : outcome (list num) :=
  match rs with
  | [] => Return []
  | r :: rs' =>
      obind (single_predict_in (combine cols r) t) (fun v =>
      obind (predict_rows cols t rs') (fun vs => Return (v :: vs)))
  end.

(** The squared error of a prediction against a label. *)
Definition squared_error (q : num * num) : num :=
  mul (sub (fst q) (snd q)) (sub (fst q) (snd q)).

(** What [select_best_split] reads of the world. *)
Definition split_view (w : world num)
    : option (list string) * option num * option num * num :=
  (self_feature_names (self w), self_G (self w), self_H (self w),
   Lambda (self w)).

(** What [single_predict], [predict] and [score] read of the world. *)
Definition tree_view (w : world num) : option (Tree num) :=
  self_tree (self w).

(** A method that leaves the world as it is, always comes back, and whose
    outcome is a function of the view [V] of the world. *)
Definition observes {T A} (V : world num -> T) (m : M num A) : Prop :=
  forall w,
    snd (m w) = w /\ fst (m w) <> OutOfFuel /\
    forall w', V w' = V w -> fst (m w') = fst (m w).

(** Two objects that differ at most in [gamma]. *)
Definition same_but_gamma (o o' : BaseTree num) : Prop :=
  set_gamma (gamma o) o' = o.

(** The attributes that [__init__] assigns. *)
Definition configuration (o : BaseTree num) : Z * Z * num * num * num :=
  (max_depth o, min_samples_split o, split_threshold o, gamma o, Lambda o).

(** A candidate taken from the data: its feature is a column of [X] and
    its value occurs in that column. *)
Definition from_data (X : DataFrame num) (c : candidate num) : Prop :=
  In (fst (fst c)) (columns X) /\
  In (snd (fst c)) (column X (fst (fst c))).

(** [trained lam X t]: [t] is a tree grown on the rows of [X]: a leaf holds
    [-G / (H + lam)] over the rows of [X]; a node splits on a column of [X]
    at a value that occurs in that column, carries the keys that [train]
    writes, and its children are grown on the two halves of [X]. *)
Inductive trained (lam : num) : DataFrame num -> Tree num -> Prop :=
| trained_leaf (X : DataFrame num) : trained lam X (Leaf (leaf_value X lam))
| trained_node (X : DataFrame num) (f : string) (v : num) (l r : Tree num) :
    In f (columns X) ->
    In v (column X f) ->
    trained lam (left_half X f v) l ->
    trained lam (right_half X f v) r ->
    trained lam X (node f v l r).

(** Every row has one cell per column. *)
Definition rectangular (X : DataFrame num) : Prop :=
  Forall (fun r => length r = length (columns X)) (rows X).

(** [str] writes [v] without a parenthesis and [float] reads it back. *)
Definition readable (v : num) : Prop :=
  of_str (to_str v) = Some v /\ before_paren (to_str v) = to_str v.

(** The row [x] has a value for every feature of [t], every left key of
    [t] reads as a number, and every leaf of [t] is a Python float. *)
Fixpoint complete (x : Series num) (t : Tree num) : Prop :=
  match t with
  | Leaf value => is_float value = true
  | Branch f lkey l _ r =>
      (exists xv, series_get x f = Return xv) /\
      (exists threshold, threshold_of lkey = Some threshold) /\
      complete x l /\ complete x r
  end.

(** Two objects that agree on everything but [self.tree]. *)
Definition same_but_tree (o o' : BaseTree num) : Prop :=
  configuration o = configuration o' /\
  self_feature_names o = self_feature_names o' /\
  self_G o = self_G o' /\ self_H o = self_H o'.

(** The leaves and the inner nodes of a tree, counted; and its last leaf,
    the one that the last call of [train] returned. *)
Fixpoint leaves (t : Tree num) : nat :=
  match t with
  | Leaf _ => 1
  | Branch _ _ l _ r => leaves l + leaves r
  end.

Fixpoint splits (t : Tree num) : nat :=
  match t with
  | Leaf _ => 0
  | Branch _ _ l _ r => S (splits l + splits r)
  end.

Fixpoint rightmost (t : Tree num) : num :=
  match t with
  | Leaf value => value
  | Branch _ _ _ _ r => rightmost r
  end.

End Vocabulary.

(* ================================================================== *)
(** ** Exact rationals as an instance *)
(* ================================================================== *)

Module Qnum.

Definition Qltb (a b : Q) : bool := negb (Qle_bool b a).

(** The text of a rational: an integer as Python writes the float
    ([5.0]), any other as numerator, slash, denominator. *)
Definition Qto_str (q : Q) : string :=
  match Qden q with
  | 1%positive => NilZero.string_of_int (Z.to_int (Qnum q)) ++ ".0"
  | d => NilZero.string_of_int (Z.to_int (Qnum q)) ++ "/"
         ++ NilZero.string_of_uint (Pos.to_uint d)
  end%string.

Fixpoint before_char (sep : ascii) (s : string) : string :=
  match s with
  | EmptyString => EmptyString
  | String c s' => if Ascii.eqb c sep then EmptyString
                   else String c (before_char sep s')
  end.

Fixpoint after_char (sep : ascii) (s : string) : option string :=
  match s with
  | EmptyString => None
  | String c s' => if Ascii.eqb c sep then Some s' else after_char sep s'
  end.

(** Reading a text back: [n/d], or a decimal with or without a point. *)
Definition Qof_str (s : string) : option Q :=
  match after_char "/" s with
  | Some d =>
      match NilZero.int_of_string (before_char "/" s),
            NilZero.uint_of_string d with
      | Some n, Some d =>
          match Pos.of_uint d with
          | Npos p => Some (Qred (Qmake (Z.of_int n) p))
          | N0 => None
          end
      | _, _ => None
      end
  | None =>
      let digits := match after_char "." s with
                    | Some f => f
                    | None => EmptyString
                    end in
      match NilZero.int_of_string (before_char "." s ++ digits) with
      | Some n =>
          Some (Qred (Qmake (Z.of_int n)
                            (Nat.iter (String.length digits)
                                      (Pos.mul 10) 1%positive)))
      | None => None
      end
  end.

#[export] Instance Q_Numeric : Numeric Q := {|
  of_Z := inject_Z;
  of_nat := fun n => inject_Z (Z.of_nat n);
  add := fun a b => Qred (Qplus a b);
  sub := fun a b => Qred (Qminus a b);
  mul := fun a b => Qred (Qmult a b);
  div := fun a b => Qred (Qdiv a b);
  neg := fun a => Qred (Qopp a);
  ltb := Qltb;
  eqb := Qeq_bool;
  to_str := Qto_str;
  of_str := Qof_str;
  is_float := fun _ => true
|}.

(** The same arithmetic for cells of dtype float32: a [numpy.float32] is
    not an instance of [float]. *)
Definition Q32_Numeric : Numeric Q := {|
  of_Z := inject_Z;
  of_nat := fun n => inject_Z (Z.of_nat n);
  add := fun a b => Qred (Qplus a b);
  sub := fun a b => Qred (Qminus a b);
  mul := fun a b => Qred (Qmult a b);
  div := fun a b => Qred (Qdiv a b);
  neg := fun a => Qred (Qopp a);
  ltb := Qltb;
  eqb := Qeq_bool;
  to_str := Qto_str;
  of_str := Qof_str;
  is_float := fun _ => false
|}.

(** The scenario of ten rows with one feature [f]: the rows with [f <= 5]
    have gradient 1, the others gradient -2, every hessian is 2. *)
Definition ten_rows : DataFrame Q :=
  {| columns := ["f"; "g"; "h"]%string;
     rows := map (fun i : Z => [inject_Z i;
                                if (i <=? 5)%Z then 1%Q else (-2)%Q;
                                2%Q])
                 [1; 2; 3; 4; 5; 6; 7; 8; 9; 10]%Z |}.

Definition ten_labels : list Q := repeat 0%Q 10.

Definition scenario : BaseTree Q := init 3 2 0%Q 0%Q 1%Q.

(** Objects: the scenario's; one with depth limit 1; one with a floor of
    100 samples; one with a gain threshold of 100. *)
Definition shallow : BaseTree Q := init 1 2 0%Q 0%Q 1%Q.
Definition cautious : BaseTree Q := init 3 100 0%Q 0%Q 1%Q.
Definition demanding : BaseTree Q := init 3 2 100%Q 0%Q 1%Q.

Definition fresh (o : BaseTree Q) : world Q := {| self := o; logged := [] |}.

(** A frame without any feature column: only [g] and [h]. *)
Definition no_feature : DataFrame Q :=
  {| columns := ["g"; "h"]%string;
     rows := repeat [1%Q; 2%Q] 5 |}.

Definition five_labels : list Q := repeat 0%Q 5.


(** The tree of the scenario under depth limit 1. *)
Definition stump : Tree Q :=
  node "f" 5%Q (Leaf (-5 # 11)%Q) (Leaf (10 # 11)%Q).

Definition to_predict : DataFrame Q :=
  {| columns := ["f"]%string; rows := [[3%Q]; [8%Q]; [5%Q]] |}.

(** A frame with features and hessians but no gradient column; a frame
    with all its columns and no row. *)
Definition no_gradient : DataFrame Q :=
  {| columns := ["f"; "h"]%string; rows := [[1%Q; 2%Q]; [2%Q; 2%Q]] |}.

Definition no_rows : DataFrame Q :=
  {| columns := ["f"; "g"; "h"]%string; rows := [] |}.

(** Other labels for the ten rows. *)
Definition other_labels : list Q :=
  map inject_Z [3; 1; 4; 1; 5; 9; 2; 6; 5; 3]%Z.

(** An object with the configuration of [shallow] that has been used: it
    holds the names, sums and tree of some earlier training, and a log. *)
Definition used : world Q :=
  {| self := set_tree (Leaf 7%Q)
               (set_H 9%Q (set_G 4%Q (set_feature_names ["z"]%string shallow)));
     logged := [DepthReached 1] |}.

End Qnum.

(* ================================================================== *)
(** * Properties *)
(* ================================================================== *)

Section ListFacts.

Context {A B : Type}.

Lemma select_map_filter (p : A -> bool) (l : list A) :
  select (map p l) l = filter p l.
Proof.
  induction l as [|a l IH]; simpl; [reflexivity|].
  destruct (p a); rewrite IH; reflexivity.
Qed.

Lemma select_map_combine (p : A -> bool) (l : list A) (y : list B) :
  length y = length l ->
  select (map p l) y = map snd (filter (fun q => p (fst q)) (combine l y)).
Proof.
  revert y. induction l as [|a l IH]; intros [|b y] Hlen; simpl in *;
    try discriminate; try reflexivity.
  injection Hlen as Hlen. destruct (p a); simpl; rewrite (IH y Hlen);
    reflexivity.
Qed.

Lemma filter_fst_combine (p : A -> bool) (l : list A) (y : list B) :
  length y = length l ->
  filter p l = map fst (filter (fun q => p (fst q)) (combine l y)).
Proof.
  revert y. induction l as [|a l IH]; intros [|b y] Hlen; simpl in *;
    try discriminate; try reflexivity.
  injection Hlen as Hlen. destruct (p a); simpl; rewrite (IH y Hlen);
    reflexivity.
Qed.

Lemma combine_fst_snd (l : list (A * B)) :
  combine (map fst l) (map snd l) = l.
Proof.
  induction l as [|[a b] l IH]; simpl; [reflexivity|].
  rewrite IH. reflexivity.
Qed.

Lemma filter_split_permutation (p : A -> bool) (l : list A) :
  Permutation (filter (fun a => negb (p a)) l ++ filter p l) l.
Proof.
  induction l as [|a l IH]; simpl; [constructor|].
  destruct (p a); simpl.
  - apply Permutation_sym. apply Permutation_cons_app.
    apply Permutation_sym. exact IH.
  - constructor. exact IH.
Qed.

End ListFacts.

Section Partition.

Context {num : Type} {N : Numeric num}.

Lemma getitem_index (X : DataFrame num) (c : string) (i : nat) :
  index_of c (columns X) = Some i ->
  getitem X c = Return (map (fun r => nth i r zero) (rows X)).
Proof. intros Hi. unfold getitem. rewrite Hi. reflexivity. Qed.

Lemma comparable {Ord : TotalOrder num} (a b : num) :
  negb (gtb a b) = leb a b.
Proof.
  unfold gtb, leb. destruct (ltb b a) eqn:Hba; simpl.
  - assert (Hab : ltb a b = false).
    { destruct (ltb a b) eqn:Hab; [|reflexivity].
      rewrite <- (ltb_irrefl a). symmetry.
      apply (ltb_trans _ _ _ Hab Hba). }
    rewrite Hab. simpl. symmetry.
    destruct (eqb a b) eqn:He; [|reflexivity].
    rewrite eqb_sym in He. apply eqb_not_ltb in He. congruence.
  - destruct (ltb a b) eqn:Hab; [reflexivity|]. simpl. symmetry.
    apply ltb_total; assumption.
Qed.

(** C5.  On a frame that has the split feature as its [i]-th column and a
    label vector of the frame's length, [split_dataset] returns, leaving the
    world as it was, the left half made of exactly the rows whose value is
    [<=] the threshold (with their labels) and the right half made of
    exactly the rows whose value is [>] the threshold (with their labels),
    each in the order of the input; both halves keep the columns; and the
    labelled rows of the two halves together are a permutation of the
    labelled rows of the input: none is lost and none is repeated. *)
Theorem split_dataset_partition {Ord : TotalOrder num}
    (X : DataFrame num) (y : list num) (split_feature : string)
    (split_value : num) (i : nat) (w : world num) :
  index_of split_feature (columns X) = Some i ->
  length y = shape0 X ->
  let le := fun r : list num => leb (nth i r zero) split_value in
  let gt := fun r : list num => gtb (nth i r zero) split_value in
  let labelled := combine (rows X) y in
  exists Xl yl Xr yr,
    split_dataset X y split_feature split_value w
      = (Return ((Xl, yl), (Xr, yr)), w) /\
    columns Xl = columns X /\ columns Xr = columns X /\
    rows Xl = filter le (rows X) /\ rows Xr = filter gt (rows X) /\
    combine (rows Xl) yl = filter (fun q => le (fst q)) labelled /\
    combine (rows Xr) yr = filter (fun q => gt (fst q)) labelled /\
    Permutation (combine (rows Xl) yl ++ combine (rows Xr) yr) labelled /\
    Permutation (rows Xl ++ rows Xr) (rows X) /\
    Permutation (yl ++ yr) y.
Proof.
  intros Hi Hlen le gt labelled. unfold shape0 in Hlen.
  assert (Hnot : forall l : list (list num),
             map negb (map (fun x => gtb x split_value)
                           (map (fun r => nth i r zero) l))
             = map le l).
  { intros l. rewrite !map_map. apply map_ext. intros r. apply comparable. }
  assert (Hgt : forall l : list (list num),
             map (fun x => gtb x split_value) (map (fun r => nth i r zero) l)
             = map gt l).
  { intros l. rewrite map_map. reflexivity. }
  assert (Hle_gt : forall r, le r = negb (gt r)).
  { intros r. unfold le, gt. symmetry. apply comparable. }
  exists (loc X (map le (rows X))), (select (map le (rows X)) y),
         (loc X (map gt (rows X))), (select (map gt (rows X)) y).
  assert (Hrl : select (map le (rows X)) (rows X) = filter le (rows X))
    by apply select_map_filter.
  assert (Hrr : select (map gt (rows X)) (rows X) = filter gt (rows X))
    by apply select_map_filter.
  assert (Hcl : combine (filter le (rows X)) (select (map le (rows X)) y)
                = filter (fun q => le (fst q)) labelled).
  { rewrite (select_map_combine le (rows X) y Hlen).
    rewrite (filter_fst_combine le (rows X) y Hlen).
    apply combine_fst_snd. }
  assert (Hcr : combine (filter gt (rows X)) (select (map gt (rows X)) y)
                = filter (fun q => gt (fst q)) labelled).
  { rewrite (select_map_combine gt (rows X) y Hlen).
    rewrite (filter_fst_combine gt (rows X) y Hlen).
    apply combine_fst_snd. }
  assert (Hpl : Permutation
                  (filter (fun q => le (fst q)) labelled
                   ++ filter (fun q => gt (fst q)) labelled) labelled).
  { rewrite (filter_ext (fun q => le (fst q))
                        (fun q => negb (gt (fst q)))).
    - apply (filter_split_permutation (fun q => gt (fst q))).
    - intros q. apply Hle_gt. }
  repeat split.
  - unfold split_dataset, bind, lift, ret.
    rewrite (getitem_index X split_feature Hi). rewrite Hnot, Hgt.
    unfold take. rewrite !length_map, <- Hlen, Nat.eqb_refl. reflexivity.
  - simpl. exact Hrl.
  - simpl. exact Hrr.
  - simpl. rewrite Hrl. exact Hcl.
  - simpl. rewrite Hrr. exact Hcr.
  - simpl. rewrite Hrl, Hrr, Hcl, Hcr. exact Hpl.
  - simpl. rewrite Hrl, Hrr.
    rewrite (filter_ext le (fun r => negb (gt r)) Hle_gt).
    apply filter_split_permutation.
  - rewrite (select_map_combine le (rows X) y Hlen).
    rewrite (select_map_combine gt (rows X) y Hlen).
    rewrite <- map_app.
    replace y with (map snd labelled) at 3.
    + apply Permutation_map. exact Hpl.
    + unfold labelled. clear - Hlen. revert y Hlen.
      induction (rows X) as [|r l IH]; intros [|b y] Hlen; simpl in *;
        try discriminate; try reflexivity.
      injection Hlen as Hlen. rewrite (IH y Hlen). reflexivity.
Qed.

End Partition.

Section Effects.

Context {num : Type} {N : Numeric num}.
Context {T : Type} (V : world num -> T).

Lemma observes_ret {A} (a : A) : observes V (ret a).
Proof. intros w. repeat split; simpl; congruence. Qed.

Lemma observes_lift {A} (o : outcome A) :
  o <> OutOfFuel -> observes V (lift o).
Proof. intros Ho w. repeat split; simpl; auto. Qed.

Lemma observes_read {A} (field : BaseTree num -> A) :
  (forall w w', V w' = V w -> field (self w') = field (self w)) ->
  observes V (read field).
Proof.
  intros Hf w. repeat split; simpl; try congruence.
  intros w' Hv. rewrite (Hf w w' Hv). reflexivity.
Qed.

Lemma observes_attr {A} (field : BaseTree num -> option A) :
  (forall w w', V w' = V w -> field (self w') = field (self w)) ->
  observes V (attr field).
Proof.
  intros Hf w. unfold attr. repeat split.
  - destruct (field (self w)); reflexivity.
  - destruct (field (self w)); simpl; congruence.
  - intros w' Hv. rewrite (Hf w w' Hv).
    destruct (field (self w)); reflexivity.
Qed.

Lemma observes_bind {A B} (m : M num A) (k : A -> M num B) :
  observes V m -> (forall a, observes V (k a)) -> observes V (bind m k).
Proof.
  intros Hm Hk w. destruct (Hm w) as (Hs & Hf & Hv). unfold bind.
  destruct (m w) as [o w1] eqn:E. simpl in Hs, Hf. subst w1.
  repeat split.
  - destruct o as [a| |]; simpl; try reflexivity. apply (Hk a w).
  - destruct o as [a| |]; simpl; try congruence. apply (Hk a w).
  - intros w' Hw'. specialize (Hv w' Hw'). simpl in Hv.
    destruct (Hm w') as (Hs' & _ & _).
    destruct (m w') as [o' w1'] eqn:E'. simpl in Hv, Hs'. subst o' w1'.
    destruct o as [a| |]; simpl; try reflexivity.
    apply (Hk a w). exact Hw'.
Qed.

Lemma observes_for_each {A St} (body : St -> A -> M num St) (l : list A) :
  (forall acc a, observes V (body acc a)) ->
  forall acc, observes V (for_each l body acc).
Proof.
  intros Hb. induction l as [|a l IH]; intros acc; simpl.
  - apply observes_ret.
  - apply observes_bind; [apply Hb | exact IH].
Qed.

Lemma observes_run {A} (m : M num A) (w : world num) :
  observes V m -> m w = (fst (m w), w).
Proof.
  intros Hm. destruct (Hm w) as (Hs & _). destruct (m w); simpl in *.
  congruence.
Qed.

End Effects.

Section ReadOnlyMethods.

Context {num : Type} {N : Numeric num}.

Lemma getitem_total (X : DataFrame num) (c : string) :
  getitem X c <> OutOfFuel.
Proof. unfold getitem. destruct (index_of c (columns X)); congruence. Qed.

Lemma take_total (y : list num) (mask : list bool) : take y mask <> OutOfFuel.
Proof.
  unfold take. destruct (Nat.eqb (length mask) (length y)); congruence.
Qed.

Lemma list_get_total {A} (l : list A) (i : nat) : list_get l i <> OutOfFuel.
Proof. unfold list_get. destruct (nth_error l i); congruence. Qed.

Lemma best_index_loop_total (gain_ls : list (candidate num))
    (range : list nat) (best : nat) :
  best_index_loop gain_ls range best <> OutOfFuel.
Proof.
  revert best. induction range as [|i range IH]; intros best; simpl.
  - congruence.
  - pose proof (list_get_total gain_ls i) as Hi.
    pose proof (list_get_total gain_ls best) as Hb.
    destruct (list_get gain_ls i) as [ci| |]; simpl; try congruence.
    destruct (list_get gain_ls best) as [cb| |]; simpl; try congruence.
    destruct (gtb (gain_of ci) (gain_of cb)); apply IH.
Qed.

Lemma pick_best_total (gain_ls : list (candidate num)) :
  pick_best gain_ls <> OutOfFuel.
Proof.
  unfold pick_best.
  pose proof (best_index_loop_total gain_ls (seq 0 (length gain_ls)) 0) as Hb.
  destruct (best_index_loop gain_ls (seq 0 (length gain_ls)) 0) as [b| |];
    simpl; try congruence.
  apply list_get_total.
Qed.

Ltac split_view_field :=
  let w := fresh "w" in let w' := fresh "w'" in let Hv := fresh "Hv" in
  intros w w' Hv; unfold split_view in Hv; congruence.

Ltac observe :=
  repeat first
    [ apply observes_ret
    | apply observes_lift;
        first [apply getitem_total | apply take_total | apply pick_best_total]
    | apply observes_read; split_view_field
    | apply observes_attr; split_view_field
    | apply observes_bind; [|intros ?] ].

Lemma value_step_observes (X : DataFrame num) (f : string)
    (acc : num * num * list (candidate num)) (v : num) :
  observes split_view (value_step X f acc v).
Proof.
  destruct acc as [[G_l H_l] gain_ls]. unfold value_step. observe.
  match goal with |- context [guard ?a ?b ?c ?d] => destruct (guard a b c d) end;
    observe.
Qed.

Lemma feature_step_observes (X : DataFrame num)
    (gain_ls : list (candidate num)) (f : string) :
  observes split_view (feature_step X gain_ls f).
Proof.
  unfold feature_step. observe.
  apply observes_for_each. intros acc v. apply value_step_observes.
Qed.

Lemma candidates_observes (X : DataFrame num) :
  observes split_view (candidates X).
Proof.
  unfold candidates. observe.
  apply observes_for_each. intros acc f. apply feature_step_observes.
Qed.

Lemma select_best_split_observes (X : DataFrame num) :
  observes split_view (select_best_split X).
Proof.
  unfold select_best_split.
  apply observes_bind; [apply candidates_observes | intros gain_ls; observe].
Qed.

Lemma split_dataset_observes (X : DataFrame num) (y : list num)
    (f : string) (v : num) :
  observes split_view (split_dataset X y f v).
Proof. unfold split_dataset. observe. Qed.

End ReadOnlyMethods.

Ltac run :=
  cbv beta iota zeta delta [bind lift read assign info ret emit_leaf attr];
  cbn [self logged set_feature_names set_G set_H set_tree max_depth
       min_samples_split split_threshold gamma Lambda self_G self_H
       self_tree self_feature_names fst snd].

Section TrainSteps.

Context {num : Type} {N : Numeric num}.

Lemma column_getitem (X : DataFrame num) (c : string) (l : list num) :
  getitem X c = Return l -> column X c = l.
Proof. intros H. unfold column. rewrite H. reflexivity. Qed.

Lemma train_rec_step (fuel : nat) (X : DataFrame num) (y : list num)
    (depth : Z) (w : world num) (gs hs : list num) :
  getitem X "g"%string = Return gs ->
  getitem X "h"%string = Return hs ->
  train_rec (S fuel) X y depth w =
    let w1 := enter X depth w in
    if (depth >? max_depth (self w))%Z
    then stop (DepthReached (max_depth (self w))) X w1
    else if (Z.of_nat (shape0 X) <? min_samples_split (self w))%Z
    then stop (TooFewSamples (shape0 X) (min_samples_split (self w))) X w1
    else
      match fst (select_best_split X w1) with
      | Return (f, v, gain) =>
          if ltb gain (split_threshold (self w))
          then stop (GainBelowThreshold gain (split_threshold (self w))) X w1
          else
            match fst (split_dataset X y f v (announce f v gain w1)) with
            | Return (lh, rh) =>
                bind (train_rec fuel (fst lh) (snd lh) (depth + 1)%Z) (fun l =>
                bind (train_rec fuel (fst rh) (snd rh) (depth + 1)%Z) (fun r =>
                bind (assign (set_tree (node f v l r))) (fun _ =>
                ret (node f v l r))))
                  (announce f v gain w1)
            | Raise e => (Raise e, announce f v gain w1)
            | OutOfFuel => (OutOfFuel, announce f v gain w1)
            end
      | Raise e => (Raise e, w1)
      | OutOfFuel => (OutOfFuel, w1)
      end.
Proof.
  intros Hg Hh. cbn zeta.
  unfold enter, stop, announce, leaf_value, node.
  rewrite (column_getitem _ _ Hg), (column_getitem _ _ Hh).
  cbn [train_rec].
  set (names := if (depth =? 1)%Z then _ else _).
  set (o1 := if (depth =? 1)%Z then _ else self w).
  assert (Hnames : names w = (Return tt, {| self := o1; logged := logged w |})).
  { unfold names, o1. destruct (depth =? 1)%Z; [reflexivity|].
    destruct w; reflexivity. }
  assert (Ho1 : max_depth o1 = max_depth (self w) /\
                min_samples_split o1 = min_samples_split (self w) /\
                split_threshold o1 = split_threshold (self w) /\
                gamma o1 = gamma (self w) /\ Lambda o1 = Lambda (self w)).
  { unfold o1. destruct (depth =? 1)%Z; repeat split. }
  destruct Ho1 as (Hmd & Hms & Hst & Hgm & Hlam).
  unfold bind at 1. rewrite Hnames. clearbody o1. clear Hnames names.
  run. rewrite Hg. run. rewrite Hh. run. rewrite Hmd.
  destruct (depth >? max_depth (self w))%Z; run;
    [rewrite Hmd, Hlam; reflexivity|].
  rewrite Hms.
  destruct (Z.of_nat (shape0 X) <? min_samples_split (self w))%Z; run;
    [rewrite Hms, Hlam; reflexivity|].
  match goal with |- context [select_best_split X ?W] =>
    rewrite (observes_run W (select_best_split_observes X));
    destruct (fst (select_best_split X W)) as [[[f v] gain]| |]
  end; run; try reflexivity.
  rewrite Hst.
  destruct (ltb gain (split_threshold (self w))); run;
    [rewrite Hst, Hlam; reflexivity|].
  rewrite <- app_assoc. cbn [app]. rewrite Hgm.
  match goal with |- context [split_dataset X y f v ?W] =>
    rewrite (observes_run W (split_dataset_observes X y f v));
    destruct (fst (split_dataset X y f v W)) as [[lh rh]| |]
  end; run; reflexivity.
Qed.

(** The object under which a call starts its work: [feature_names] is
    assigned at depth 1 only. *)
Lemma train_rec_no_g (fuel : nat) (X : DataFrame num) (y : list num)
    (depth : Z) (w : world num) (e : exn) :
  getitem X "g"%string = Raise e ->
  train_rec (S fuel) X y depth w
  = (Raise e,
     {| self := if (depth =? 1)%Z
                then set_feature_names
                       (firstn (length (columns X) - 2) (columns X)) (self w)
                else self w;
        logged := logged w |}).
Proof.
  intros Hg. cbn [train_rec]. unfold bind at 1.
  destruct (depth =? 1)%Z; run; rewrite Hg; [reflexivity|].
  destruct w; reflexivity.
Qed.

Lemma train_rec_no_h (fuel : nat) (X : DataFrame num) (y : list num)
    (depth : Z) (w : world num) (gs : list num) (e : exn) :
  getitem X "g"%string = Return gs ->
  getitem X "h"%string = Raise e ->
  train_rec (S fuel) X y depth w
  = (Raise e,
     {| self := set_G (sum gs)
                  (if (depth =? 1)%Z
                   then set_feature_names
                          (firstn (length (columns X) - 2) (columns X))
                          (self w)
                   else self w);
        logged := logged w |}).
Proof.
  intros Hg Hh. cbn [train_rec]. unfold bind at 1.
  destruct (depth =? 1)%Z; run; rewrite Hg; run; rewrite Hh; reflexivity.
Qed.

Lemma train_rec_O (X : DataFrame num) (y : list num) (depth : Z)
    (w : world num) :
  train_rec 0 X y depth w = (OutOfFuel, w).
Proof. reflexivity. Qed.

Local Opaque train_rec.

Lemma max_depth_enter (X : DataFrame num) (depth : Z) (w : world num) :
  max_depth (self (enter X depth w)) = max_depth (self w).
Proof. unfold enter. simpl. destruct (depth =? 1)%Z; reflexivity. Qed.

Ltac failed :=
  simpl; repeat split;
  first [ congruence
        | intros ? ?; discriminate
        | match goal with |- context [(?d =? 1)%Z] =>
            destruct (d =? 1)%Z; reflexivity
          end ].

Lemma stop_facts (r : log_record num) (X : DataFrame num) (depth : Z)
    (w : world num) (n : nat) :
  fst (stop r X (enter X depth w)) <> OutOfFuel /\
  max_depth (self (snd (stop r X (enter X depth w)))) = max_depth (self w) /\
  forall t, fst (stop r X (enter X depth w)) = Return t ->
            (height t <= n)%nat.
Proof.
  unfold stop. simpl. repeat split; try congruence.
  - destruct (depth =? 1)%Z; reflexivity.
  - intros t [= <-]. simpl. lia.
Qed.

Lemma train_rec_enough (n : nat) :
  forall (fuel : nat) (X : DataFrame num) (y : list num) (depth : Z)
         (w : world num),
    (Z.to_nat (max_depth (self w) + 1 - depth) <= n)%nat ->
    (n < fuel)%nat ->
    train_rec fuel X y depth w = train_rec (S n) X y depth w /\
    fst (train_rec (S n) X y depth w) <> OutOfFuel /\
    max_depth (self (snd (train_rec (S n) X y depth w)))
      = max_depth (self w) /\
    forall t, fst (train_rec (S n) X y depth w) = Return t ->
              (height t <= n)%nat.
Proof.
  induction n as [|n IH]; intros fuel X y depth w Hn Hfuel;
    (destruct fuel as [|fuel]; [lia|]);
    (destruct (getitem X "g"%string) as [gs|e|] eqn:Hg;
       [| rewrite !(train_rec_no_g _ _ _ _ _ Hg); simpl;
          repeat split; try congruence; destruct (depth =? 1)%Z; reflexivity
        | exfalso; exact (getitem_total _ _ Hg)]);
    (destruct (getitem X "h"%string) as [hs|e|] eqn:Hh;
       [| rewrite !(train_rec_no_h _ _ _ _ _ Hg Hh); simpl;
          repeat split; try congruence; destruct (depth =? 1)%Z; reflexivity
        | exfalso; exact (getitem_total _ _ Hh)]);
    rewrite !(train_rec_step _ _ _ _ _ Hg Hh); cbn zeta;
    (destruct (depth >? max_depth (self w))%Z eqn:Hd;
       [split; [reflexivity | apply stop_facts] |]);
    try (exfalso; rewrite Z.gtb_ltb in Hd; apply Z.ltb_ge in Hd; lia).
  destruct (Z.of_nat (shape0 X) <? min_samples_split (self w))%Z;
    [split; [reflexivity | apply stop_facts] |].
  pose proof (select_best_split_observes X (enter X depth w)) as (_ & Hsel & _).
  destruct (fst (select_best_split X (enter X depth w)))
    as [[[f v] gain]|e|]; [| | contradiction].
  2:{ failed. }
  destruct (ltb gain (split_threshold (self w)));
    [split; [reflexivity | apply stop_facts] |].
  set (w2 := announce f v gain (enter X depth w)).
  assert (Hw2 : max_depth (self w2) = max_depth (self w))
    by apply max_depth_enter.
  pose proof (split_dataset_observes X y f v w2) as (_ & Hsp & _).
  destruct (fst (split_dataset X y f v w2)) as [[lh rh]|e|];
    [| | contradiction].
  2:{ failed. }
  rewrite Z.gtb_ltb in Hd. apply Z.ltb_ge in Hd.
  assert (Hfuel' : (n < fuel)%nat) by lia.
  destruct (IH fuel (fst lh) (snd lh) (depth + 1)%Z w2)
    as (E1 & NF1 & MD1 & HT1); [rewrite Hw2; lia | exact Hfuel' |].
  unfold bind. rewrite E1.
  destruct (train_rec (S n) (fst lh) (snd lh) (depth + 1) w2)
    as [[l|e|] w3]; cbn [fst snd] in NF1, MD1, HT1; [| | contradiction].
  2:{ failed. }
  destruct (IH fuel (fst rh) (snd rh) (depth + 1)%Z w3)
    as (E2 & NF2 & MD2 & HT2); [rewrite MD1, Hw2; lia | exact Hfuel' |].
  rewrite E2.
  destruct (train_rec (S n) (fst rh) (snd rh) (depth + 1) w3)
    as [[r|e|] w4]; cbn [fst snd] in NF2, MD2, HT2; [| | contradiction].
  2:{ failed. }
  cbn [assign ret fst snd self set_tree max_depth]. repeat split; try congruence.
  intros t [= <-]. unfold node. cbn [height].
  specialize (HT1 l eq_refl). specialize (HT2 r eq_refl). lia.
Qed.


(** C10.  Whatever the frame, the labels, the depth and the object, [train]
    comes back, with a tree or with an exception: the nesting of its calls
    never exceeds [calls_needed], that is one call beyond the depth limit;
    any larger bound on the nesting gives the same result; and a returned
    tree is no higher than the number of depths left up to the limit. *)
Theorem train_terminates (X : DataFrame num) (y : list num) (depth : Z)
    (w : world num) :
  fst (train X y depth w) <> OutOfFuel /\
  (forall fuel : nat,
      (calls_needed (max_depth (self w)) depth <= fuel)%nat ->
      train_rec fuel X y depth w = train X y depth w) /\
  (forall t : Tree num,
      fst (train X y depth w) = Return t ->
      (height t <= Z.to_nat (max_depth (self w) + 1 - depth))%nat).
Proof.
  unfold train, calls_needed.
  set (n := Z.to_nat (max_depth (self w) + 1 - depth)).
  destruct (@train_rec_enough n (S n) X y depth w (le_n _)
              (Nat.lt_succ_diag_r _))
    as (_ & Hnf & _ & Hh).
  split; [exact Hnf|]. split; [|exact Hh].
  intros fuel Hfuel.
  apply (@train_rec_enough n fuel X y depth w (le_n _)). lia.
Qed.

Lemma train_deeper (X : DataFrame num) (y : list num) (depth : Z)
    (w : world num) :
  (depth <= max_depth (self w))%Z ->
  calls_needed (max_depth (self w)) depth
  = S (calls_needed (max_depth (self w)) (depth + 1)).
Proof. intros Hd. unfold calls_needed. f_equal. lia. Qed.

Lemma train_max_depth (X : DataFrame num) (y : list num) (depth : Z)
    (w : world num) :
  max_depth (self (snd (train X y depth w))) = max_depth (self w).
Proof.
  unfold train, calls_needed.
  apply (@train_rec_enough (Z.to_nat (max_depth (self w) + 1 - depth))
           (S (Z.to_nat (max_depth (self w) + 1 - depth))) X y depth w);
    lia.
Qed.

Lemma split_dataset_halves (X : DataFrame num) (y : list num) (f : string)
    (v : num) (w : world num) (lhalf rhalf : DataFrame num * list num) :
  fst (split_dataset X y f v w) = Return (lhalf, rhalf) ->
  fst lhalf = left_half X f v /\ fst rhalf = right_half X f v.
Proof.
  unfold split_dataset, left_half, right_half, right_mask, column.
  unfold bind, lift, ret.
  destruct (getitem X f) as [col| |]; cbn [fst]; try discriminate.
  destruct (take y (map negb (map (fun x => gtb x v) col))) as [yl| |];
    cbn [fst]; try discriminate.
  destruct (take y (map (fun x => gtb x v) col)) as [yr| |];
    cbn [fst]; try discriminate.
  intros [= <- <-]. split; reflexivity.
Qed.

Lemma Lambda_enter (X : DataFrame num) (depth : Z) (w : world num) :
  Lambda (self (enter X depth w)) = Lambda (self w).
Proof. unfold enter. simpl. destruct (depth =? 1)%Z; reflexivity. Qed.

(** Every tree that [train] returns is fitted on the rows it was given. *)
Lemma train_rec_fitted (fuel : nat) :
  forall (X : DataFrame num) (y : list num) (depth : Z) (w : world num)
         (t : Tree num),
    fst (train_rec fuel X y depth w) = Return t ->
    fitted (Lambda (self w)) X t /\
    Lambda (self (snd (train_rec fuel X y depth w))) = Lambda (self w).
Proof.
  induction fuel as [|fuel IH]; intros X y depth w t;
    [rewrite train_rec_O; discriminate|].
  destruct (getitem X "g"%string) as [gs|e|] eqn:Hg;
    [| rewrite (train_rec_no_g _ _ _ _ _ Hg); discriminate
     | exfalso; exact (getitem_total _ _ Hg)].
  destruct (getitem X "h"%string) as [hs|e|] eqn:Hh;
    [| rewrite (train_rec_no_h _ _ _ _ _ Hg Hh); discriminate
     | exfalso; exact (getitem_total _ _ Hh)].
  rewrite (train_rec_step _ _ _ _ _ Hg Hh). cbn zeta.
  pose proof (Lambda_enter X depth w) as Hlam.
  assert (Hstop : forall r, fst (stop r X (enter X depth w)) = Return t ->
            fitted (Lambda (self w)) X t /\
            Lambda (self (snd (stop r X (enter X depth w))))
              = Lambda (self w)).
  { intros r. unfold stop. cbn [fst snd self Lambda set_tree].
    rewrite Hlam. intros [= <-]. split; [constructor | reflexivity]. }
  destruct (depth >? max_depth (self w))%Z; [apply Hstop|].
  destruct (Z.of_nat (shape0 X) <? min_samples_split (self w))%Z;
    [apply Hstop|].
  destruct (fst (select_best_split X (enter X depth w)))
    as [[[f v] gain]|e|]; try discriminate.
  destruct (ltb gain (split_threshold (self w))); [apply Hstop|].
  set (w2 := announce f v gain (enter X depth w)).
  assert (Hw2 : Lambda (self w2) = Lambda (self w)) by exact Hlam.
  destruct (fst (split_dataset X y f v w2)) as [[lh rh]|e|] eqn:Hsp;
    try discriminate.
  destruct (split_dataset_halves X y f v w2 Hsp) as (Hl & Hr).
  unfold bind.
  pose proof (IH (fst lh) (snd lh) (depth + 1)%Z w2) as IHl.
  destruct (train_rec fuel (fst lh) (snd lh) (depth + 1) w2) as [[l|e|] w3];
    try discriminate.
  destruct (IHl l eq_refl) as (Fl & Ll). cbn [snd] in Ll.
  pose proof (IH (fst rh) (snd rh) (depth + 1)%Z w3) as IHr.
  destruct (train_rec fuel (fst rh) (snd rh) (depth + 1) w3) as [[r|e|] w4];
    try discriminate.
  destruct (IHr r eq_refl) as (Fr & Lr). cbn [snd] in Lr.
  cbn [assign ret fst snd self set_tree Lambda]. intros [= <-]. split.
  - constructor.
    + rewrite <- Hl, <- Hw2. exact Fl.
    + rewrite <- Hr, <- Hw2, <- Ll. exact Fr.
  - congruence.
Qed.

(** C1.  A call of [train] on a frame [X] that has the columns [g] and
    [h], with [G] and [H] their sums over the rows of [X], applies the
    stopping rules in this order: (1) beyond the depth limit, (2) with
    fewer rows than [min_samples_split], (3) with a best split whose gain
    is below [split_threshold].  Whichever fires, the call logs that rule,
    stores and returns the leaf [-G / (H + Lambda)]; rule (1) fires
    whatever the rows are, and rule (2) before any split is searched.
    When none fires the call stores and returns the node of the best
    split over the trees that [train] returns on the two halves of
    [split_dataset], left first, each at [depth + 1].  So every leaf of a
    returned tree holds [-G / (H + Lambda)] summed over precisely the rows
    that reach it. *)
Theorem train_stopping_rules (X : DataFrame num) (y : list num) (depth : Z)
    (w : world num) (gs hs : list num) :
  getitem X "g"%string = Return gs ->
  getitem X "h"%string = Return hs ->
  let limit := max_depth (self w) in
  let floor := min_samples_split (self w) in
  let leaf := Leaf (div (neg (sum gs)) (add (sum hs) (Lambda (self w)))) in
  let w1 := enter X depth w in
  (forall r, fst (stop r X w1) = Return leaf) /\
  ((depth > limit)%Z ->
   train X y depth w = stop (DepthReached limit) X w1) /\
  ((depth <= limit)%Z -> (Z.of_nat (shape0 X) < floor)%Z ->
   train X y depth w = stop (TooFewSamples (shape0 X) floor) X w1) /\
  (forall f v gain,
      (depth <= limit)%Z -> (floor <= Z.of_nat (shape0 X))%Z ->
      fst (select_best_split X w1) = Return (f, v, gain) ->
      ltb gain (split_threshold (self w)) = true ->
      train X y depth w
      = stop (GainBelowThreshold gain (split_threshold (self w))) X w1) /\
  (forall f v gain lhalf rhalf l r w2 w3,
      (depth <= limit)%Z -> (floor <= Z.of_nat (shape0 X))%Z ->
      fst (select_best_split X w1) = Return (f, v, gain) ->
      ltb gain (split_threshold (self w)) = false ->
      fst (split_dataset X y f v (announce f v gain w1))
        = Return (lhalf, rhalf) ->
      train (fst lhalf) (snd lhalf) (depth + 1) (announce f v gain w1)
        = (Return l, w2) ->
      train (fst rhalf) (snd rhalf) (depth + 1) w2 = (Return r, w3) ->
      let tree := Branch f (to_str v ++ "(l)")%string l
                           (to_str v ++ "(r)")%string r in
      train X y depth w
      = (Return tree,
         {| self := set_tree tree (self w3); logged := logged w3 |})) /\
  (forall t, fst (train X y depth w) = Return t ->
             fitted (Lambda (self w)) X t).
Proof.
  intros Hg Hh limit floor leaf w1.
  assert (Hleaf : forall r, fst (stop r X w1) = Return leaf).
  { intros r. unfold stop, leaf, leaf_value, w1. cbn [fst].
    rewrite (column_getitem _ _ Hg), (column_getitem _ _ Hh).
    unfold enter. cbn [self Lambda set_H set_G].
    destruct (depth =? 1)%Z; reflexivity. }
  split; [exact Hleaf|].
  assert (Hfit : forall t, fst (train X y depth w) = Return t ->
                           fitted (Lambda (self w)) X t).
  { intros t Ht. unfold train in Ht.
    apply (train_rec_fitted _ _ _ _ _ Ht). }
  split; [|split; [|split; [|split; [|exact Hfit]]]];
    unfold train, calls_needed;
    rewrite (train_rec_step _ _ _ _ _ Hg Hh); cbn zeta;
    fold limit floor w1.
  - intros Hd. apply Z.gt_lt, Z.gtb_lt in Hd. rewrite Hd. reflexivity.
  - intros Hd Hn. apply Z.ltb_lt in Hn.
    assert (Hd' : (depth >? limit)%Z = false).
    { rewrite Z.gtb_ltb. apply Z.ltb_ge. exact Hd. }
    rewrite Hd', Hn. reflexivity.
  - intros f v gain Hd Hn Hsel Hgain.
    assert (Hd' : (depth >? limit)%Z = false).
    { rewrite Z.gtb_ltb. apply Z.ltb_ge. exact Hd. }
    assert (Hn' : (Z.of_nat (shape0 X) <? floor)%Z = false).
    { apply Z.ltb_ge. exact Hn. }
    rewrite Hd', Hn', Hsel, Hgain. reflexivity.
  - intros f v gain lhalf rhalf l r w2 w3 Hd Hn Hsel Hgain Hsplit Hl Hr.
    assert (Hd' : (depth >? limit)%Z = false).
    { rewrite Z.gtb_ltb. apply Z.ltb_ge. exact Hd. }
    assert (Hn' : (Z.of_nat (shape0 X) <? floor)%Z = false).
    { apply Z.ltb_ge. exact Hn. }
    rewrite Hd', Hn', Hsel, Hgain, Hsplit.
    assert (Hw1 : max_depth (self (announce f v gain w1)) = limit)
      by apply max_depth_enter.
    assert (Hw2 : max_depth (self w2) = limit).
    { rewrite <- Hw1.
      pose proof (train_max_depth (fst lhalf) (snd lhalf) (depth + 1)
                    (announce f v gain w1)) as Hm.
      unfold train, calls_needed in Hm. rewrite Hl in Hm. exact Hm. }
    rewrite Hw1 in Hl. rewrite Hw2 in Hr.
    replace (Z.to_nat (limit + 1 - depth))
      with (S (Z.to_nat (limit + 1 - (depth + 1)))) by lia.
    unfold bind. rewrite Hl, Hr. reflexivity.
Qed.

Lemma same_but_gamma_fields (o o' : BaseTree num) :
  same_but_gamma o o' <->
  max_depth o = max_depth o' /\
  min_samples_split o = min_samples_split o' /\
  split_threshold o = split_threshold o' /\
  Lambda o = Lambda o' /\
  self_feature_names o = self_feature_names o' /\
  self_G o = self_G o' /\ self_H o = self_H o' /\
  self_tree o = self_tree o'.
Proof.
  unfold same_but_gamma, set_gamma. destruct o, o'. simpl. split.
  - intros [= -> -> -> -> -> -> -> ->]. repeat split.
  - intros (-> & -> & -> & -> & -> & -> & -> & ->). reflexivity.
Qed.

Lemma same_but_gamma_view (w w' : world num) :
  same_but_gamma (self w) (self w') -> split_view w' = split_view w.
Proof.
  intros Hs. apply same_but_gamma_fields in Hs.
  destruct Hs as (_ & _ & _ & Hl & Hn & HG & HH & _).
  unfold split_view. congruence.
Qed.

Lemma same_but_gamma_enter (X : DataFrame num) (depth : Z) (w w' : world num) :
  same_but_gamma (self w) (self w') ->
  same_but_gamma (self (enter X depth w)) (self (enter X depth w')).
Proof.
  intros Hs. apply same_but_gamma_fields in Hs.
  apply same_but_gamma_fields. unfold enter. cbn [self].
  destruct (depth =? 1)%Z; simpl; tauto.
Qed.

Lemma same_but_gamma_stop (r r' : log_record num) (X : DataFrame num)
    (w w' : world num) :
  same_but_gamma (self w) (self w') ->
  fst (stop r X w) = fst (stop r' X w') /\
  same_but_gamma (self (snd (stop r X w))) (self (snd (stop r' X w'))).
Proof.
  intros Hs. apply same_but_gamma_fields in Hs.
  destruct Hs as (? & ? & ? & Hl & ? & ? & ? & ?).
  unfold stop. cbn [fst snd self]. rewrite Hl. split; [reflexivity|].
  apply same_but_gamma_fields. simpl. tauto.
Qed.

Lemma same_but_gamma_set_tree (t : Tree num) (o o' : BaseTree num) :
  same_but_gamma o o' -> same_but_gamma (set_tree t o) (set_tree t o').
Proof.
  intros Hs. apply same_but_gamma_fields in Hs.
  apply same_but_gamma_fields. simpl. tauto.
Qed.

Lemma train_rec_gamma (fuel : nat) :
  forall (X : DataFrame num) (y : list num) (depth : Z) (w w' : world num),
    same_but_gamma (self w) (self w') ->
    fst (train_rec fuel X y depth w) = fst (train_rec fuel X y depth w') /\
    same_but_gamma (self (snd (train_rec fuel X y depth w)))
                   (self (snd (train_rec fuel X y depth w'))).
Proof.
  induction fuel as [|fuel IH]; intros X y depth w w' Hs.
  { rewrite !train_rec_O. split; [reflexivity | exact Hs]. }
  pose proof (proj1 (same_but_gamma_fields _ _) Hs)
    as (Hmd & Hms & Hst & Hlam & Hfn & HG & HH & Htr).
  destruct (getitem X "g"%string) as [gs|e|] eqn:Hg;
    [| | exfalso; exact (getitem_total _ _ Hg)].
  2:{ rewrite !(train_rec_no_g _ _ _ _ _ Hg). cbn [fst snd self].
      split; [reflexivity|]. apply same_but_gamma_fields.
      destruct (depth =? 1)%Z; simpl; tauto. }
  destruct (getitem X "h"%string) as [hs|e|] eqn:Hh;
    [| | exfalso; exact (getitem_total _ _ Hh)].
  2:{ rewrite !(train_rec_no_h _ _ _ _ _ Hg Hh). cbn [fst snd self].
      split; [reflexivity|]. apply same_but_gamma_fields.
      destruct (depth =? 1)%Z; simpl; tauto. }
  rewrite !(train_rec_step _ _ _ _ _ Hg Hh). cbn zeta.
  pose proof (same_but_gamma_enter X depth _ _ Hs) as Hs1.
  rewrite <- Hmd, <- Hms, <- Hst.
  destruct (depth >? max_depth (self w))%Z;
    [apply same_but_gamma_stop; exact Hs1|].
  destruct (Z.of_nat (shape0 X) <? min_samples_split (self w))%Z;
    [apply same_but_gamma_stop; exact Hs1|].
  pose proof (select_best_split_observes X (enter X depth w))
    as (_ & _ & Hsel).
  rewrite (Hsel (enter X depth w') (same_but_gamma_view _ _ Hs1)).
  destruct (fst (select_best_split X (enter X depth w)))
    as [[[f v] gain]|e|]; cbn [fst snd]; try (split; [reflexivity|exact Hs1]).
  destruct (ltb gain (split_threshold (self w)));
    [apply same_but_gamma_stop; exact Hs1|].
  set (w2 := announce f v gain (enter X depth w)).
  set (w2' := announce f v gain (enter X depth w')).
  assert (Hs2 : same_but_gamma (self w2) (self w2')) by exact Hs1.
  pose proof (split_dataset_observes X y f v w2) as (_ & _ & Hsp).
  rewrite (Hsp w2' (same_but_gamma_view _ _ Hs2)).
  destruct (fst (split_dataset X y f v w2)) as [[lh rh]|e|];
    cbn [fst snd]; try (split; [reflexivity|exact Hs2]).
  unfold bind.
  destruct (IH (fst lh) (snd lh) (depth + 1)%Z w2 w2' Hs2) as (E1 & Hs3).
  destruct (train_rec fuel (fst lh) (snd lh) (depth + 1) w2) as [o1 w3].
  destruct (train_rec fuel (fst lh) (snd lh) (depth + 1) w2') as [o1' w3'].
  cbn [fst snd] in E1, Hs3. subst o1'.
  destruct o1 as [l|e|]; cbn [fst snd]; try (split; [reflexivity|exact Hs3]).
  destruct (IH (fst rh) (snd rh) (depth + 1)%Z w3 w3' Hs3) as (E2 & Hs4).
  destruct (train_rec fuel (fst rh) (snd rh) (depth + 1) w3) as [o2 w4].
  destruct (train_rec fuel (fst rh) (snd rh) (depth + 1) w3') as [o2' w4'].
  cbn [fst snd] in E2, Hs4. subst o2'.
  destruct o2 as [r|e|]; cbn [fst snd]; try (split; [reflexivity|exact Hs4]).
  cbn [assign ret fst snd self]. split; [reflexivity|].
  apply same_but_gamma_set_tree. exact Hs4.
Qed.

(** C8.  The loss reduction [gain / 2 - gamma] goes to the log and nowhere
    else: two runs of [train] on the same frame and labels, from objects
    that differ in nothing but [gamma], return the same outcome (the same
    tree, or the same exception) and leave the same tree in [self.tree]. *)
Theorem gamma_never_gates (X : DataFrame num) (y : list num) (depth : Z)
    (o : BaseTree num) (log1 log2 : list (log_record num))
    (gamma1 gamma2 : num) :
  let w1 := {| self := set_gamma gamma1 o; logged := log1 |} in
  let w2 := {| self := set_gamma gamma2 o; logged := log2 |} in
  fst (train X y depth w1) = fst (train X y depth w2) /\
  self_tree (self (snd (train X y depth w1)))
    = self_tree (self (snd (train X y depth w2))).
Proof.
  intros w1 w2.
  assert (Hs : same_but_gamma (self w1) (self w2)).
  { apply same_but_gamma_fields. simpl. repeat split. }
  unfold train. cbn [self max_depth set_gamma w1 w2].
  destruct (train_rec_gamma (calls_needed (max_depth o) depth) X y depth
              w1 w2 Hs) as (Hout & Hfin).
  split; [exact Hout|].
  apply same_but_gamma_fields in Hfin. tauto.
Qed.

Local Transparent train_rec.

End TrainSteps.

Unset Implicit Arguments.

Section SplitSearch.

Context {num : Type} {N : Numeric num}.

Lemma index_of_In (c : string) (cs : list string) :
  In c cs -> exists i, index_of c cs = Some i.
Proof.
  induction cs as [|c' cs IH]; simpl; [contradiction|].
  intros Hin. destruct (String.eqb c' c) eqn:E; [eauto|].
  destruct Hin as [->|Hin]; [rewrite String.eqb_refl in E; discriminate|].
  destruct (IH Hin) as [i Hi]. rewrite Hi. simpl. eauto.
Qed.

Lemma getitem_In (X : DataFrame num) (c : string) :
  In c (columns X) -> getitem X c = Return (column X c).
Proof.
  intros Hin. destruct (index_of_In _ _ Hin) as [i Hi].
  unfold column. rewrite (getitem_index X c Hi). reflexivity.
Qed.

Lemma getitem_loc (X : DataFrame num) (mask : list bool) (c : string) :
  In c (columns X) -> getitem (loc X mask) c = Return (column (loc X mask) c).
Proof. intros Hin. apply (getitem_In (loc X mask) c). exact Hin. Qed.

(** The invariant of the inner loop: from the running sums [G_l] and [H_l]
    and the list [gain_ls], the loop over [vs] appends [scan]. *)
Lemma value_loop (X : DataFrame num) (f : string) (G H : num)
    (w : world num) :
  In f (columns X) -> In "g"%string (columns X) ->
  In "h"%string (columns X) ->
  self_G (self w) = Some G -> self_H (self w) = Some H ->
  forall (vs : list num) (G_l H_l : num) (gain_ls : list (candidate num)),
    exists G_l' H_l',
      for_each vs (value_step X f) (G_l, H_l, gain_ls) w
      = (Return (G_l', H_l',
                 gain_ls ++ scan X G H (Lambda (self w)) f G_l H_l vs), w).
Proof.
  intros Hf Hg Hh HG HH. induction vs as [|v vs IH]; intros G_l H_l gain_ls.
  - exists G_l, H_l. simpl. rewrite app_nil_r. reflexivity.
  - cbn [for_each scan]. unfold bind at 1. unfold value_step at 1.
    run. rewrite (getitem_In X f Hf). run.
    rewrite (getitem_loc X _ "g" Hg). run.
    rewrite (getitem_loc X _ "h" Hh). run.
    rewrite HG. run. rewrite HH. run. rewrite HH. run.
    fold (value_sum X f "g" v). fold (value_sum X f "h" v).
    set (G_l1 := add G_l (value_sum X f "g" v)).
    set (H_l1 := add H_l (value_sum X f "h" v)).
    destruct (guard (Lambda (self w)) H_l1 (sub H H_l1) H); run.
    + rewrite HG. run. rewrite HH. run.
      destruct (IH G_l1 H_l1
                  (gain_ls ++ [(f, v, gain_formula G H (Lambda (self w)) G_l1
                                        H_l1 (sub G G_l1) (sub H H_l1))]))
        as (G_l' & H_l' & E).
      exists G_l', H_l'. rewrite E, <- app_assoc. reflexivity.
    + destruct (IH G_l1 H_l1 gain_ls) as (G_l' & H_l' & E).
      exists G_l', H_l'. rewrite E. reflexivity.
Qed.

Lemma firstn_prefix {A} (pre rest : list A) :
  firstn (length pre) (pre ++ rest) = pre.
Proof.
  rewrite firstn_app, Nat.sub_diag, firstn_all. simpl. apply app_nil_r.
Qed.

Lemma firstn_prefix_S {A} (pre : list A) (v : A) (rest : list A) :
  firstn (S (length pre)) (pre ++ v :: rest) = pre ++ [v].
Proof.
  replace (pre ++ v :: rest) with ((pre ++ [v]) ++ rest)
    by (rewrite <- app_assoc; reflexivity).
  replace (S (length pre)) with (length (pre ++ [v]))
    by (rewrite length_app; simpl; lia).
  apply firstn_prefix.
Qed.

Lemma nth_prefix {A} (pre : list A) (v : A) (rest : list A) (d : A) :
  nth (length pre) (pre ++ v :: rest) d = v.
Proof. rewrite app_nth2, Nat.sub_diag; [reflexivity | lia]. Qed.

Lemma gain_formula_gain_at (G H lam G_l H_l : num) :
  gain_formula G H lam G_l H_l (sub G G_l) (sub H H_l)
  = gain_at G H lam G_l H_l.
Proof. reflexivity. Qed.

(** The running sums of the loop are the left-side sums: after the values
    [pre], the loop over the remaining values records the candidates
    number [length pre] and up that are not degenerate. *)
Lemma scan_from (X : DataFrame num) (G H lam : num) (f : string) :
  forall (rest pre : list num),
    values_of X f = pre ++ rest ->
    scan X G H lam f
         (fold_left add (map (value_sum X f "g"%string) pre) zero)
         (fold_left add (map (value_sum X f "h"%string) pre) zero)
         rest
    = map (candidate_at X G H lam f)
          (filter (fun k => negb (degenerate X H lam f k))
                  (seq (length pre) (length rest))).
Proof.
  induction rest as [|v rest IH]; intros pre Hvs; [reflexivity|].
  cbn [scan length seq filter].
  assert (HG : add (fold_left add (map (value_sum X f "g"%string) pre) zero)
                   (value_sum X f "g"%string v)
               = left_sum X f "g"%string (length pre)).
  { unfold left_sum. rewrite Hvs, firstn_prefix_S, map_app, fold_left_app.
    reflexivity. }
  assert (HH : add (fold_left add (map (value_sum X f "h"%string) pre) zero)
                   (value_sum X f "h"%string v)
               = left_sum X f "h"%string (length pre)).
  { unfold left_sum. rewrite Hvs, firstn_prefix_S, map_app, fold_left_app.
    reflexivity. }
  rewrite HG, HH.
  assert (Hrest : values_of X f = (pre ++ [v]) ++ rest)
    by (rewrite Hvs, <- app_assoc; reflexivity).
  specialize (IH (pre ++ [v]) Hrest).
  rewrite !map_app, !fold_left_app in IH. cbn [map fold_left] in IH.
  rewrite HG, HH in IH.
  replace (length (pre ++ [v])) with (S (length pre)) in IH
    by (rewrite length_app; simpl; lia).
  rewrite IH.
  change (guard lam (left_sum X f "h" (length pre))
                (sub H (left_sum X f "h" (length pre))) H)
    with (negb (degenerate X H lam f (length pre))).
  destruct (negb (degenerate X H lam f (length pre))); [|reflexivity].
  cbn [map app]. f_equal. unfold candidate_at.
  rewrite Hvs, nth_prefix. reflexivity.
Qed.

Lemma feature_step_closed (X : DataFrame num) (f : string) (G H : num)
    (w : world num) (gain_ls : list (candidate num)) :
  In f (columns X) -> In "g"%string (columns X) ->
  In "h"%string (columns X) ->
  self_G (self w) = Some G -> self_H (self w) = Some H ->
  feature_step X gain_ls f w
  = (Return (gain_ls ++ recorded_of X G H (Lambda (self w)) f), w).
Proof.
  intros Hf Hg Hh HG HH. unfold feature_step. unfold bind at 1.
  unfold lift at 1. rewrite (getitem_In X f Hf). unfold bind at 1.
  destruct (value_loop X f G H w Hf Hg Hh HG HH
              (sort_values (drop_duplicates (column X f))) zero zero gain_ls)
    as (G_l' & H_l' & E).
  rewrite E. unfold ret. cbn [snd]. f_equal. f_equal. f_equal.
  exact (scan_from X G H (Lambda (self w)) f (values_of X f) [] eq_refl).
Qed.

Lemma feature_loop (X : DataFrame num) (G H : num) (w : world num) :
  In "g"%string (columns X) -> In "h"%string (columns X) ->
  self_G (self w) = Some G -> self_H (self w) = Some H ->
  forall (names : list string) (gain_ls : list (candidate num)),
    Forall (fun f => In f (columns X)) names ->
    for_each names (feature_step X) gain_ls w
    = (Return (gain_ls ++ recorded X G H (Lambda (self w)) names), w).
Proof.
  intros Hg Hh HG HH. induction names as [|f names IH]; intros gain_ls Hcols.
  - simpl. unfold ret. rewrite app_nil_r. reflexivity.
  - inversion Hcols as [|? ? Hf Hrest]; subst.
    cbn [for_each]. unfold bind.
    rewrite (feature_step_closed X f G H w gain_ls Hf Hg Hh HG HH).
    rewrite (IH _ Hrest). unfold recorded. cbn [flat_map].
    rewrite app_assoc. reflexivity.
Qed.

(** The list [gain_ls] of [select_best_split] in closed form. *)
Lemma candidates_closed (X : DataFrame num) (names : list string)
    (G H : num) (w : world num) :
  self_feature_names (self w) = Some names ->
  self_G (self w) = Some G -> self_H (self w) = Some H ->
  In "g"%string (columns X) -> In "h"%string (columns X) ->
  Forall (fun f => In f (columns X)) names ->
  candidates X w = (Return (recorded X G H (Lambda (self w)) names), w).
Proof.
  intros Hn HG HH Hg Hh Hcols. unfold candidates. unfold bind, attr.
  rewrite Hn. rewrite (feature_loop X G H w Hg Hh HG HH names [] Hcols). reflexivity.
Qed.

Lemma index_of_Some_In (c : string) (cs : list string) (i : nat) :
  index_of c cs = Some i -> In c cs.
Proof.
  revert i. induction cs as [|c' cs IH]; simpl; intros i Hi; [discriminate|].
  destruct (String.eqb c' c) eqn:E.
  - left. apply String.eqb_eq. exact E.
  - right. destruct (index_of c cs) as [j|]; [|discriminate].
    apply (IH j). reflexivity.
Qed.

Lemma enter_attributes (X : DataFrame num) (depth : Z) (w : world num) :
  self_G (self (enter X depth w)) = Some (sum (column X "g"%string)) /\
  self_H (self (enter X depth w)) = Some (sum (column X "h"%string)) /\
  Lambda (self (enter X depth w)) = Lambda (self w).
Proof.
  unfold enter. cbn [self]. destruct (depth =? 1)%Z; repeat split.
Qed.

Lemma candidates_entered (X : DataFrame num) (depth : Z) (w : world num)
    (names : list string) :
  self_feature_names (self (enter X depth w)) = Some names ->
  In "g"%string (columns X) -> In "h"%string (columns X) ->
  Forall (fun f => In f (columns X)) names ->
  candidates X (enter X depth w)
  = (Return (recorded X (sum (column X "g"%string))
                      (sum (column X "h"%string)) (Lambda (self w)) names),
     enter X depth w).
Proof.
  intros Hn Hg Hh Hcols.
  destruct (enter_attributes X depth w) as (HG & HH & Hlam).
  rewrite (candidates_closed X names _ _ _ Hn HG HH Hg Hh Hcols), Hlam.
  reflexivity.
Qed.

(** C2.  When [train] calls [select_best_split] on the frame [X] of a
    node, with [G] and [H] the sums of the columns [g] and [h] of [X], the
    list of candidates that the two loops record is, feature after feature
    and value after value, the list of the triples [(f, v, gain)] for the
    distinct values [v] of [f] that pass the guard against division by
    zero, with
    [gain = G_l^2/(H_l+lam) + G_r^2/(H_r+lam) - G^2/(H+lam)],
    where [G_l], [H_l] are the left-side sums accumulated up to that
    value, [G_r = G - G_l] and [H_r = H - H_l].  So every value that
    passes the guard is recorded with exactly this gain, and nothing else
    is recorded. *)
Theorem gain_is_exact (X : DataFrame num) (depth : Z) (w : world num)
    (names : list string) :
  self_feature_names (self (enter X depth w)) = Some names ->
  In "g"%string (columns X) -> In "h"%string (columns X) ->
  Forall (fun f => In f (columns X)) names ->
  let G := sum (column X "g"%string) in
  let H := sum (column X "h"%string) in
  let lam := Lambda (self w) in
  let value := fun f k => nth k (values_of X f) zero in
  let G_l := fun f k => left_sum X f "g"%string k in
  let H_l := fun f k => left_sum X f "h"%string k in
  let G_r := fun f k => sub G (G_l f k) in
  let H_r := fun f k => sub H (H_l f k) in
  let gain := fun f k =>
    sub (add (div (mul (G_l f k) (G_l f k)) (add (H_l f k) lam))
             (div (mul (G_r f k) (G_r f k)) (add (H_r f k) lam)))
        (div (mul G G) (add H lam)) in
  let guarded := fun f k =>
    negb (eqb (neg lam) (H_l f k) || eqb (neg lam) (H_r f k)
          || eqb (neg lam) H) in
  exists gain_ls,
    fst (candidates X (enter X depth w)) = Return gain_ls /\
    gain_ls
    = flat_map (fun f => map (fun k => (f, value f k, gain f k))
                             (filter (guarded f)
                                     (seq 0 (length (values_of X f)))))
               names /\
    (forall f k,
       In f names -> (k < length (values_of X f))%nat ->
       guarded f k = true ->
       In (f, value f k, gain f k) gain_ls) /\
    (forall f v recorded_gain,
       In (f, v, recorded_gain) gain_ls ->
       exists k,
         In f names /\ nth_error (values_of X f) k = Some v /\
         guarded f k = true /\ recorded_gain = gain f k).
Proof.
  intros Hn Hg Hh Hcols G H lam value G_l H_l G_r H_r gain guarded.
  rewrite (candidates_entered X depth w names Hn Hg Hh Hcols).
  eexists. split; [reflexivity|]. split; [reflexivity|]. split.
  - intros f k Hf Hk Hguard. unfold recorded. apply in_flat_map.
    exists f. split; [exact Hf|]. unfold recorded_of.
    apply in_map_iff. exists k. split; [reflexivity|].
    apply filter_In. split; [apply in_seq; lia | exact Hguard].
  - intros f v recorded_gain Hin. unfold recorded in Hin.
    apply in_flat_map in Hin. destruct Hin as (f' & Hf' & Hin).
    unfold recorded_of in Hin. apply in_map_iff in Hin.
    destruct Hin as (k & Hk & Hin). apply filter_In in Hin.
    destruct Hin as (Hseq & Hguard). apply in_seq in Hseq.
    unfold candidate_at in Hk. injection Hk as <- <- <-.
    exists k. split; [exact Hf'|]. split; [|split].
    + apply nth_error_nth'. lia.
    + exact Hguard.
    + reflexivity.
Qed.

(** C7.  When [train] calls [select_best_split] on the frame [X] of a
    node, the recorded list is, feature after feature and value after
    value, the list of all candidates except those whose [H_l], [H_r] or
    [H] is [== -lam]: these are skipped and nothing else is.  When a sum
    is zero only for opposite terms, no recorded candidate has a zero
    denominator [H_l + lam], [H_r + lam] or [H + lam]. *)
Theorem degenerate_candidates_skipped (X : DataFrame num) (depth : Z)
    (w : world num) (names : list string) :
  self_feature_names (self (enter X depth w)) = Some names ->
  In "g"%string (columns X) -> In "h"%string (columns X) ->
  Forall (fun f => In f (columns X)) names ->
  let G := sum (column X "g"%string) in
  let H := sum (column X "h"%string) in
  let lam := Lambda (self w) in
  let H_l := fun f k => left_sum X f "h"%string k in
  let skipped := fun f k =>
    eqb (neg lam) (H_l f k) || eqb (neg lam) (sub H (H_l f k))
    || eqb (neg lam) H in
  fst (candidates X (enter X depth w))
  = Return (flat_map
              (fun f => map (candidate_at X G H lam f)
                            (filter (fun k => negb (skipped f k))
                                    (seq 0 (length (values_of X f)))))
              names) /\
  (Cancellative num ->
   forall f k,
     skipped f k = false ->
     eqb (add (H_l f k) lam) zero = false /\
     eqb (add (sub H (H_l f k)) lam) zero = false /\
     eqb (add H lam) zero = false).
Proof.
  intros Hn Hg Hh Hcols G H lam H_l skipped.
  rewrite (candidates_entered X depth w names Hn Hg Hh Hcols). split.
  - reflexivity.
  - intros Hcancel f k Hs. unfold skipped in Hs.
    apply orb_false_iff in Hs. destruct Hs as (Hs & H3).
    apply orb_false_iff in Hs. destruct Hs as (H1 & H2).
    assert (Hnz : forall a, eqb (neg lam) a = false ->
                            eqb (add a lam) zero = false).
    { intros a Ha. destruct (eqb (add a lam) zero) eqn:E; [|reflexivity].
      apply Hcancel in E. congruence. }
    repeat split; apply Hnz; assumption.
Qed.

(** C4, as the code has it.  When the list of candidates is empty,
    [select_best_split] fails with the IndexError of the access
    [gain_ls[best_index]] at index 0; there is no guard of its own. *)
Theorem empty_candidates_index_error (X : DataFrame num) (w : world num) :
  fst (candidates X w) = Return [] ->
  fst (select_best_split X w) = Raise IndexError.
Proof.
  intros Hc. unfold select_best_split, bind.
  rewrite (observes_run w (candidates_observes X)), Hc. reflexivity.
Qed.

End SplitSearch.

Section Enumeration.

Context {num : Type} {N : Numeric num} {Ord : TotalOrder num}.

Lemma eqb_refl (a : num) : eqb a a = true.
Proof. apply ltb_total; apply ltb_irrefl. Qed.

Lemma ltb_of_distinct (a b : num) :
  eqb a b = false -> ltb a b = false -> ltb b a = true.
Proof.
  intros He Hab. destruct (ltb b a) eqn:Hba; [reflexivity|].
  rewrite (ltb_total a b Hab Hba) in He. discriminate.
Qed.

(** [drop_duplicates] keeps values of the list, one for every value of the
    list, and no two that are [==]. *)
Lemma drop_duplicates_from_In (seen l : list num) (v : num) :
  In v (drop_duplicates_from seen l) -> In v l.
Proof.
  revert seen. induction l as [|x l IH]; intros seen; simpl; [tauto|].
  destruct (existsb (fun s => eqb s x) seen); simpl.
  - intros Hin. right. apply (IH seen Hin).
  - intros [->|Hin]; [left; reflexivity | right; apply (IH _ Hin)].
Qed.

Lemma drop_duplicates_from_fresh (seen l : list num) :
  Forall (fun v => forall s, In s seen -> eqb s v = false)
         (drop_duplicates_from seen l).
Proof.
  revert seen. induction l as [|x l IH]; intros seen; simpl; [constructor|].
  destruct (existsb (fun s => eqb s x) seen) eqn:E; [apply IH|].
  constructor.
  - intros s Hs. destruct (eqb s x) eqn:Hsx; [|reflexivity].
    assert (Hex : existsb (fun s => eqb s x) seen = true)
      by (apply existsb_exists; exists s; split; assumption).
    congruence.
  - eapply Forall_impl; [|apply (IH (x :: seen))].
    intros v Hv s Hs. apply Hv. right. exact Hs.
Qed.

Lemma drop_duplicates_from_distinct (seen l : list num) :
  ForallOrdPairs (fun a b => eqb a b = false) (drop_duplicates_from seen l).
Proof.
  revert seen. induction l as [|x l IH]; intros seen; simpl; [constructor|].
  destruct (existsb (fun s => eqb s x) seen); [apply IH|].
  constructor; [|apply IH].
  eapply Forall_impl; [|apply (drop_duplicates_from_fresh (x :: seen) l)].
  intros v Hv. apply Hv. left. reflexivity.
Qed.

Lemma drop_duplicates_from_covers (seen l : list num) (x : num) :
  In x l ->
  (exists s, In s seen /\ eqb s x = true) \/
  (exists v, In v (drop_duplicates_from seen l) /\ eqb v x = true).
Proof.
  revert seen. induction l as [|a l IH]; intros seen Hin; [contradiction|].
  simpl. destruct (existsb (fun s => eqb s a) seen) eqn:E.
  - destruct Hin as [->|Hin]; [|apply (IH seen Hin)].
    left. apply existsb_exists in E. exact E.
  - destruct Hin as [->|Hin].
    + right. exists x. split; [left; reflexivity | apply eqb_refl].
    + destruct (IH (a :: seen) Hin) as [(s & [<-|Hs] & Hsx)|(v & Hv & Hvx)].
      * right. exists a. split; [left; reflexivity | exact Hsx].
      * left. exists s. split; assumption.
      * right. exists v. split; [right; exact Hv | exact Hvx].
Qed.

(** [sort_values] rearranges; on values no two of which are [==] the
    result ascends strictly. *)
Lemma insert_sorted_In (x : num) (l : list num) (v : num) :
  In v (insert_sorted x l) <-> v = x \/ In v l.
Proof.
  induction l as [|y l IH]; simpl.
  - split; [intros [<-|[]]; left; reflexivity | intros [->|[]]; left; reflexivity].
  - destruct (ltb x y); simpl.
    + split; [intros [<-|H]; [left; reflexivity | right; exact H]
             | intros [->|H]; [left; reflexivity | right; exact H]].
    + rewrite IH. split.
      * intros [<-|[->|H]]; [right; left; reflexivity | left; reflexivity
                            | right; right; exact H].
      * intros [->|[<-|H]]; [right; left; reflexivity | left; reflexivity
                            | right; right; exact H].
Qed.

Lemma sort_values_In (l : list num) (v : num) :
  In v (sort_values l) <-> In v l.
Proof.
  induction l as [|x l IH]; simpl; [tauto|].
  rewrite insert_sorted_In, IH. split; intros [H|H]; auto.
Qed.

Lemma insert_sorted_ascending (x : num) (l : list num) :
  StronglySorted (fun a b => ltb a b = true) l ->
  Forall (fun v => eqb x v = false) l ->
  StronglySorted (fun a b => ltb a b = true) (insert_sorted x l).
Proof.
  induction l as [|y l IH]; intros Hs Hd; simpl.
  - constructor; constructor.
  - inversion Hs as [|? ? Hsl Hyl]; subst.
    inversion Hd as [|? ? Hxy Hdl]; subst.
    destruct (ltb x y) eqn:Hlt.
    + constructor; [exact Hs|]. constructor; [exact Hlt|].
      eapply Forall_impl; [|exact Hyl].
      intros v Hv. exact (ltb_trans x y v Hlt Hv).
    + constructor; [apply IH; assumption|].
      apply Forall_forall. intros v Hv.
      apply (proj1 (insert_sorted_In _ _ _)) in Hv.
      destruct Hv as [->|Hv].
      * apply ltb_of_distinct; assumption.
      * rewrite Forall_forall in Hyl. apply Hyl. exact Hv.
Qed.

Lemma sort_values_ascending (l : list num) :
  ForallOrdPairs (fun a b => eqb a b = false) l ->
  StronglySorted (fun a b => ltb a b = true) (sort_values l).
Proof.
  induction l as [|x l IH]; intros Hd; simpl; [constructor|].
  inversion Hd as [|? ? Hx Hl]; subst.
  apply insert_sorted_ascending; [apply IH; exact Hl|].
  apply Forall_forall. intros v Hv.
  apply (proj1 (sort_values_In _ _)) in Hv.
  rewrite Forall_forall in Hx. apply Hx. exact Hv.
Qed.

Lemma values_of_ascending (X : DataFrame num) (f : string) :
  StronglySorted (fun a b => ltb a b = true) (values_of X f).
Proof.
  unfold values_of, drop_duplicates. apply sort_values_ascending.
  apply drop_duplicates_from_distinct.
Qed.

Lemma values_of_column (X : DataFrame num) (f : string) :
  (forall v, In v (values_of X f) -> In v (column X f)) /\
  (forall x, In x (column X f) ->
             exists v, In v (values_of X f) /\ eqb v x = true).
Proof.
  unfold values_of, drop_duplicates. split.
  - intros v Hv. apply (proj1 (sort_values_In _ _)) in Hv.
    apply (drop_duplicates_from_In [] _ _ Hv).
  - intros x Hx.
    destruct (drop_duplicates_from_covers [] _ x Hx)
      as [(s & [] & _)|(v & Hv & Hvx)].
    exists v. split; [apply sort_values_In; exact Hv | exact Hvx].
Qed.

End Enumeration.

Section Selection.

Context {num : Type} {N : Numeric num} {Ord : TotalOrder num}.

(** The invariant of the loop on [best_index]: when the positions below
    [m] have been visited, no candidate below [m] beats the current best,
    and the current best beats every candidate before it. *)
Lemma best_index_loop_first_maximum (gain_ls : list (candidate num)) :
  forall (n m best : nat) (cb : candidate num),
    (m + n = length gain_ls)%nat ->
    nth_error gain_ls best = Some cb ->
    (forall j cj, (j < m)%nat -> nth_error gain_ls j = Some cj ->
                  gtb (gain_of cj) (gain_of cb) = false) ->
    (forall j cj, (j < best)%nat -> nth_error gain_ls j = Some cj ->
                  gtb (gain_of cb) (gain_of cj) = true) ->
    exists b c,
      best_index_loop gain_ls (seq m n) best = Return b /\
      first_maximum gain_ls b c.
Proof.
  induction n as [|n IH]; intros m best cb Hlen Hb Hnone Hfirst.
  - exists best, cb. split; [reflexivity|]. split; [exact Hb|]. split.
    + intros j cj Hj. apply (Hnone j cj); [|exact Hj].
      assert (j < length gain_ls)%nat
        by (apply nth_error_Some; congruence).
      lia.
    + exact Hfirst.
  - cbn [seq best_index_loop]. unfold list_get.
    destruct (nth_error gain_ls m) as [ci|] eqn:Hi.
    2:{ apply nth_error_None in Hi. lia. }
    rewrite Hb. cbn [obind].
    destruct (gtb (gain_of ci) (gain_of cb)) eqn:Hgt.
    + apply (IH (S m) m ci); [lia | exact Hi | |].
      * intros j cj Hj Hcj. unfold gtb in *.
        destruct (Nat.eq_dec j m) as [->|Hne].
        -- replace cj with ci by congruence. apply ltb_irrefl.
        -- assert (Hjb : ltb (gain_of cb) (gain_of cj) = false)
             by (apply (Hnone j cj); [lia | exact Hcj]).
           destruct (ltb (gain_of ci) (gain_of cj)) eqn:E; [|reflexivity].
           rewrite (ltb_trans _ _ _ Hgt E) in Hjb. discriminate.
      * intros j cj Hj Hcj. unfold gtb in *.
        assert (Hjb : ltb (gain_of cb) (gain_of cj) = false)
          by (apply (Hnone j cj); [exact Hj | exact Hcj]).
        destruct (ltb (gain_of cj) (gain_of ci)) eqn:E; [reflexivity|].
        rewrite (ltb_neg_trans _ _ _ Hjb E) in Hgt. discriminate.
    + apply (IH (S m) best cb); [lia | exact Hb | | exact Hfirst].
      intros j cj Hj Hcj.
      destruct (Nat.eq_dec j m) as [->|Hne].
      * replace cj with ci by congruence. exact Hgt.
      * apply (Hnone j cj); [lia | exact Hcj].
Qed.

Lemma pick_best_first_maximum (gain_ls : list (candidate num)) :
  gain_ls <> [] ->
  exists i c, pick_best gain_ls = Return c /\ first_maximum gain_ls i c.
Proof.
  intros Hne. destruct gain_ls as [|c0 rest] eqn:E; [congruence|].
  rewrite <- E. assert (H0 : nth_error gain_ls 0 = Some c0)
    by (rewrite E; reflexivity).
  destruct (best_index_loop_first_maximum gain_ls (length gain_ls) 0 0 c0
              eq_refl H0) as (b & c & Hloop & Hmax).
  - intros j cj Hj. lia.
  - intros j cj Hj. lia.
  - exists b, c. split; [|exact Hmax].
    unfold pick_best. rewrite Hloop. cbn [obind]. unfold list_get.
    destruct Hmax as (Hb & _). rewrite Hb. reflexivity.
Qed.

Lemma column_cells (X : DataFrame num) (c : string) :
  In c (columns X) -> column X c = map (cell X c) (rows X).
Proof.
  intros Hin. destruct (index_of_In _ _ Hin) as [i Hi].
  unfold column. rewrite (getitem_index X c Hi).
  apply map_ext. intros r. unfold cell. rewrite Hi. reflexivity.
Qed.

Lemma value_sum_rows (X : DataFrame num) (f c : string) (v : num) :
  In f (columns X) -> In c (columns X) ->
  value_sum X f c v
  = sum (map (cell X c)
             (filter (fun r => eqb (cell X f r) v) (rows X))).
Proof.
  intros Hf Hc. unfold value_sum.
  rewrite (column_cells (loc X _) c Hc). cbn [rows loc].
  rewrite (column_cells X f Hf), map_map, select_map_filter.
  reflexivity.
Qed.

Lemma left_sum_step (X : DataFrame num) (f c : string) (k : nat) (v : num) :
  nth_error (values_of X f) k = Some v ->
  left_sum X f c k
  = add (match k with
         | O => zero
         | S k' => left_sum X f c k'
         end) (value_sum X f c v).
Proof.
  intros Hk. unfold left_sum.
  destruct (nth_error_split _ _ Hk) as (pre & rest & Hvs & Hlen).
  rewrite Hvs. subst k. rewrite firstn_prefix_S, map_app, fold_left_app.
  cbn [map fold_left]. f_equal.
  destruct pre as [|p pre]; [reflexivity|].
  cbn [length]. f_equal. f_equal.
  destruct (@exists_last _ (p :: pre)) as (pre' & l & Hlast); [discriminate|].
  rewrite Hlast.
  replace (length pre) with (length pre').
  - rewrite <- app_assoc. cbn [app]. symmetry. apply firstn_prefix_S.
  - assert (Hl : length (p :: pre) = length (pre' ++ [l])) by congruence.
    rewrite length_app in Hl. simpl in Hl. lia.
Qed.

(** C3.  When [train] calls [select_best_split] on the frame [X] of a
    node: for every feature the values visited are the distinct values of
    its column in strictly ascending order; at the [k]-th of them, [v], the
    left-side sums [G_l] and [H_l] are those of the value before (0 at the
    first) plus the sum of [g] (of [h]) over the rows whose feature is
    [== v], and the gain of the candidate is computed from these sums; the
    recorded list holds the candidates feature after feature in that order;
    and the split returned is the first candidate of maximum gain: no
    recorded candidate has a greater gain, and its gain is strictly
    greater than the gain of every candidate recorded before it. *)
Theorem select_best_split_first_maximum (X : DataFrame num) (depth : Z)
    (w : world num) (names : list string) :
  self_feature_names (self (enter X depth w)) = Some names ->
  In "g"%string (columns X) -> In "h"%string (columns X) ->
  Forall (fun f => In f (columns X)) names ->
  let G := sum (column X "g"%string) in
  let H := sum (column X "h"%string) in
  let lam := Lambda (self w) in
  let gain_ls :=
    flat_map (fun f => map (candidate_at X G H lam f)
                           (filter (fun k => negb (degenerate X H lam f k))
                                   (seq 0 (length (values_of X f)))))
             names in
  (forall f, In f names ->
     StronglySorted (fun a b => ltb a b = true) (values_of X f) /\
     (forall v, In v (values_of X f) -> In v (column X f)) /\
     (forall x, In x (column X f) ->
                exists v, In v (values_of X f) /\ eqb v x = true)) /\
  (forall f c k v,
     In f names -> In c ["g"; "h"]%string ->
     nth_error (values_of X f) k = Some v ->
     left_sum X f c k
     = add (match k with
            | O => zero
            | S k' => left_sum X f c k'
            end)
           (sum (map (cell X c)
                     (filter (fun r => eqb (cell X f r) v) (rows X))))) /\
  fst (candidates X (enter X depth w)) = Return gain_ls /\
  (gain_ls <> [] ->
   exists i c,
     fst (select_best_split X (enter X depth w)) = Return c /\
     first_maximum gain_ls i c).
Proof.
  intros Hn Hg Hh Hcols G H lam gain_ls.
  pose proof (candidates_entered X depth w names Hn Hg Hh Hcols) as Hc.
  split; [|split; [|split]].
  - intros f Hf. split; [apply values_of_ascending|].
    apply values_of_column.
  - intros f c k v Hf Hc' Hk.
    rewrite (left_sum_step X f c k v Hk). f_equal.
    apply value_sum_rows.
    + rewrite Forall_forall in Hcols. apply Hcols. exact Hf.
    + destruct Hc' as [<-|[<-|[]]]; assumption.
  - rewrite Hc. reflexivity.
  - intros Hne.
    destruct (pick_best_first_maximum gain_ls Hne) as (i & c & Hp & Hmax).
    exists i, c. split; [|exact Hmax].
    unfold select_best_split, bind. rewrite Hc. exact Hp.
Qed.

End Selection.

Section Prediction.

Context {num : Type} {N : Numeric num}.

(** The walk ends at a leaf; what comes back is decided there, by the
    test [isinstance(tree, float)]. *)
Lemma single_predict_in_at_leaf (x : Series num) (t : Tree num) (v : num) :
  reaches x t v ->
  single_predict_in x t
  = if is_float v then Return v else Raise AttributeError.
Proof.
  intros Hr. induction Hr as [v|f lkey l rkey r threshold xv v Ht Hx Hgt _ IH
                               |f lkey l rkey r threshold xv v Ht Hx Hgt _ IH];
    cbn [single_predict_in].
  - reflexivity.
  - unfold threshold_of in Ht. rewrite Hx. cbn [obind]. rewrite Ht, Hgt.
    exact IH.
  - unfold threshold_of in Ht. rewrite Hx. cbn [obind]. rewrite Ht, Hgt.
    exact IH.
Qed.

Lemma single_predict_in_reaches (x : Series num) (t : Tree num) (v : num) :
  single_predict_in x t = Return v <-> reaches x t v /\ is_float v = true.
Proof.
  split.
  - revert v. induction t as [a|f lkey l IHl rkey r IHr]; intros v;
      cbn [single_predict_in].
    + destruct (is_float a) eqn:Hfl; [|discriminate].
      intros [= <-]. split; [constructor | exact Hfl].
    + destruct (series_get x f) as [xv| |] eqn:Hx; cbn [obind];
        try discriminate.
      destruct (of_str (before_paren lkey)) as [threshold|] eqn:Ht;
        try discriminate.
      destruct (gtb xv threshold) eqn:Hgt; intros Hv.
      * destruct (IHr v Hv) as (Hr & Hfl). split; [|exact Hfl].
        eapply reaches_right; eauto.
      * destruct (IHl v Hv) as (Hr & Hfl). split; [|exact Hfl].
        eapply reaches_left; eauto.
  - intros (Hr & Hfl). rewrite (single_predict_in_at_leaf x t v Hr), Hfl.
    reflexivity.
Qed.

Lemma before_paren_append (s t : string) :
  before_paren s = s -> before_paren (s ++ String "(" t) = s.
Proof.
  induction s as [|c s IH]; simpl; [reflexivity|].
  destruct (Ascii.eqb c "("); [discriminate|].
  intros [= Hs]. rewrite (IH Hs). reflexivity.
Qed.

(** The threshold read back from a node that [train] has built is the
    split value, when [str] writes it without a parenthesis and [float]
    reads it back. *)
Lemma trained_threshold (v : num) :
  of_str (to_str v) = Some v -> before_paren (to_str v) = to_str v ->
  threshold_of (to_str v ++ "(l)") = Some v.
Proof.
  intros Hparse Hparen.
  unfold threshold_of. rewrite (before_paren_append _ _ Hparen).
  exact Hparse.
Qed.

Lemma series_get_total (x : Series num) (name : string) :
  series_get x name <> OutOfFuel.
Proof.
  induction x as [|[c v] x IH]; simpl; [congruence|].
  destruct (String.eqb c name); [congruence | exact IH].
Qed.

Lemma single_predict_in_total (x : Series num) (t : Tree num) :
  single_predict_in x t <> OutOfFuel.
Proof.
  induction t as [a|f lkey l IHl rkey r IHr]; simpl;
    [destruct (is_float a); congruence|].
  pose proof (series_get_total x f) as Hx.
  destruct (series_get x f) as [xv| |]; simpl; try congruence.
  destruct (of_str (before_paren lkey)) as [threshold|]; [|congruence].
  destruct (gtb xv threshold); assumption.
Qed.

Lemma iloc_total (X : DataFrame num) (i : nat) : iloc X i <> OutOfFuel.
Proof. unfold iloc. destruct (nth_error (rows X) i); congruence. Qed.

Lemma single_predict_observes (x : Series num) (tree : option (Tree num)) :
  observes tree_view (single_predict x tree).
Proof.
  unfold single_predict. apply observes_bind.
  - destruct tree as [t|]; [apply observes_ret|].
    apply observes_attr. intros w w' Hv. exact Hv.
  - intros t. apply observes_lift. apply single_predict_in_total.
Qed.

Lemma predict_observes (X : DataFrame num) : observes tree_view (predict X).
Proof.
  unfold predict. apply observes_for_each. intros res i.
  apply observes_bind; [apply observes_lift; apply iloc_total|].
  intros x. apply observes_bind; [apply single_predict_observes|].
  intros v. apply observes_ret.
Qed.

Lemma predict_body (X : DataFrame num) (t : Tree num) (w : world num)
    (i : nat) (r : list num) (res : list num) :
  self_tree (self w) = Some t ->
  nth_error (rows X) i = Some r ->
  bind (lift (iloc X i)) (fun x =>
  bind (single_predict x None) (fun v => ret (res ++ [v]))) w
  = (obind (single_predict_in (combine (columns X) r) t)
           (fun v => Return (res ++ [v])), w).
Proof.
  intros Ht Hr. unfold bind, lift, iloc, single_predict, bind, attr, lift, ret.
  rewrite Hr, Ht.
  destruct (single_predict_in (combine (columns X) r) t); reflexivity.
Qed.

(** The loop of [predict]: with the rows [pre] done and their values in
    [res], the loop over the remaining rows appends their values. *)
Lemma predict_loop (X : DataFrame num) (t : Tree num) (w : world num) :
  self_tree (self w) = Some t ->
  forall (rest pre : list (list num)) (res : list num),
    rows X = pre ++ rest ->
    for_each (seq (length pre) (length rest))
             (fun res i =>
                bind (lift (iloc X i)) (fun x =>
                bind (single_predict x None) (fun v =>
                ret (res ++ [v]))))
             res w
    = (obind (predict_rows (columns X) t rest)
             (fun vs => Return (res ++ vs)), w).
Proof.
  intros Ht. induction rest as [|r rest IH]; intros pre res Hrows.
  - simpl. unfold ret. rewrite app_nil_r. reflexivity.
  - cbn [length seq for_each predict_rows]. unfold bind at 1.
    rewrite (predict_body X t w (length pre) r res Ht).
    2:{ rewrite Hrows, nth_error_app2, Nat.sub_diag by lia. reflexivity. }
    destruct (single_predict_in (combine (columns X) r) t) as [v|e|];
      cbn [obind]; try reflexivity.
    assert (Hrows' : rows X = (pre ++ [r]) ++ rest)
      by (rewrite Hrows, <- app_assoc; reflexivity).
    specialize (IH (pre ++ [r]) (res ++ [v]) Hrows').
    rewrite length_app in IH. cbn [length] in IH.
    rewrite Nat.add_1_r in IH. rewrite IH.
    destruct (predict_rows (columns X) t rest) as [vs|e|]; cbn [obind];
      try reflexivity.
    rewrite <- app_assoc. reflexivity.
Qed.

Lemma predict_closed (X : DataFrame num) (t : Tree num) (w : world num) :
  self_tree (self w) = Some t ->
  predict X w = (predict_rows (columns X) t (rows X), w).
Proof.
  intros Ht. unfold predict, shape0.
  pose proof (predict_loop X t w Ht (rows X) [] [] eq_refl) as E.
  cbn [length] in E. rewrite E.
  destruct (predict_rows (columns X) t (rows X)); reflexivity.
Qed.

Lemma predict_rows_reaches (cols : list string) (t : Tree num)
    (rs : list (list num)) (vs : list num) :
  predict_rows cols t rs = Return vs <->
  Forall2 (fun r v => reaches (combine cols r) t v /\ is_float v = true)
          rs vs.
Proof.
  revert vs. induction rs as [|r rs IH]; intros vs; simpl.
  - split; [intros [= <-]; constructor | intros H; inversion H; reflexivity].
  - split.
    + destruct (single_predict_in (combine cols r) t) as [v| |] eqn:Hv;
        simpl; try discriminate.
      destruct (predict_rows cols t rs) as [vs'| |]; simpl; try discriminate.
      intros [= <-]. constructor.
      * apply single_predict_in_reaches. exact Hv.
      * apply IH. reflexivity.
    + intros H. inversion H as [|? v ? vs' Hr Hrest]; subst.
      apply single_predict_in_reaches in Hr. rewrite Hr. simpl.
      apply IH in Hrest. rewrite Hrest. reflexivity.
Qed.


Lemma predict_rows_length (cols : list string) (t : Tree num)
    (rs : list (list num)) (vs : list num) :
  predict_rows cols t rs = Return vs -> length vs = length rs.
Proof.
  intros H. apply predict_rows_reaches in H. symmetry.
  apply (Forall2_length H).
Qed.

Lemma predict_length (X : DataFrame num) (w : world num) (p : list num) :
  fst (predict X w) = Return p -> length p = shape0 X.
Proof.
  destruct (self_tree (self w)) as [t|] eqn:Ht.
  - rewrite (predict_closed X t w Ht). cbn [fst].
    apply predict_rows_length.
  - unfold predict, shape0. destruct (rows X) as [|r rs] eqn:Hr.
    + simpl. intros [= <-]. reflexivity.
    + cbn [length seq for_each]. unfold bind at 1. unfold bind at 1.
      unfold lift at 1, iloc. rewrite Hr. cbn [nth_error].
      unfold bind at 1. unfold single_predict, bind, attr. rewrite Ht.
      cbn [fst]. discriminate.
Qed.

(** C9.  [score] leaves the world as it was, whatever it returns; and for
    a label vector of the frame's length, when [predict] returns the
    predictions [p], [score] returns the sum of the squares
    [(p_i - y_i)^2] over the rows divided by the number of rows. *)
Theorem score_is_mean_squared_error (X : DataFrame num) (y : list num)
    (w : world num) :
  snd (score X y w) = w /\
  forall p,
    length y = shape0 X ->
    fst (predict X w) = Return p ->
    fst (score X y w)
    = Return (div (sum (map squared_error (combine p y)))
                  (of_nat (shape0 X))).
Proof.
  split.
  - assert (Hobs : observes tree_view (score X y)).
    { unfold score. apply observes_bind; [apply predict_observes|].
      intros p. apply observes_bind; [|intros d; apply observes_ret].
      apply observes_lift. unfold array_sub.
      destruct (Nat.eqb (length p) (length y)); [congruence|].
      destruct p as [|a [|b p]]; destruct y as [|c [|d y]]; congruence. }
    apply Hobs.
  - intros p Hy Hp. pose proof (predict_length X w p Hp) as Hlen.
    unfold score, bind.
    rewrite (observes_run w (predict_observes X)), Hp.
    unfold lift, array_sub, ret. rewrite Hlen, Hy, Nat.eqb_refl. cbn [fst].
    unfold mean. rewrite !length_map, length_combine, Hlen, Hy, Nat.min_id.
    rewrite map_map. reflexivity.
Qed.

End Prediction.

(* ================================================================== *)
(** * The rationals satisfy the laws; the properties at work *)
(* ================================================================== *)

Section RationalLaws.

Import Qnum.

Lemma Qltb_lt (a b : Q) : Qltb a b = true <-> (a < b)%Q.
Proof.
  unfold Qltb. rewrite negb_true_iff. split.
  - intros H. apply Qnot_le_lt. intros Hle.
    apply Qle_bool_iff in Hle. congruence.
  - intros H. destruct (Qle_bool b a) eqn:E; [|reflexivity].
    apply Qle_bool_iff in E. apply Qlt_not_le in H. contradiction.
Qed.

Lemma Qltb_ge (a b : Q) : Qltb a b = false <-> (b <= a)%Q.
Proof.
  unfold Qltb. rewrite negb_false_iff. apply Qle_bool_iff.
Qed.

#[export] Instance Q_TotalOrder : TotalOrder Q.
Proof.
  constructor; cbn [ltb eqb Q_Numeric].
  - intros a. apply Qltb_ge. apply Qle_refl.
  - intros a b c Hab Hbc. apply Qltb_lt in Hab, Hbc. apply Qltb_lt.
    eapply Qlt_trans; eassumption.
  - intros a b c Hab Hbc. apply Qltb_ge in Hab, Hbc. apply Qltb_ge.
    eapply Qle_trans; eassumption.
  - intros a b Hab Hba. apply Qltb_ge in Hab, Hba. apply Qeq_bool_iff.
    apply Qle_antisym; assumption.
  - intros a b. apply Qeq_bool_comm.
  - intros a b Hab. apply Qeq_bool_iff in Hab. apply Qltb_ge.
    rewrite Hab. apply Qle_refl.
Qed.

Lemma Q_Cancellative : Cancellative Q.
Proof.
  intros a b. cbn [eqb add neg Q_Numeric]. unfold zero. cbn [of_Z Q_Numeric].
  intros H. apply Qeq_bool_iff in H. apply Qeq_bool_iff.
  rewrite Qred_correct in *. unfold inject_Z in H. lra.
Qed.

End RationalLaws.

Section Witnesses.

Import Qnum.

Local Open Scope string_scope.

Lemma ten_rows_g : In "g" (columns ten_rows).
Proof. simpl. auto. Defined.

Lemma ten_rows_h : In "h" (columns ten_rows).
Proof. simpl. auto. Defined.

Lemma ten_rows_features :
  Forall (fun f => In f (columns ten_rows)) ["f"].
Proof. constructor; [simpl; auto | constructor]. Defined.

(** The four cases of C1 on the ten rows: beyond the depth limit, under
    the floor of samples, under the gain threshold, and a split. *)
Lemma train_stopping_rules_witness :
  train ten_rows ten_labels 4 (fresh scenario)
    = stop (DepthReached 3) ten_rows (enter ten_rows 4 (fresh scenario)) /\
  train ten_rows ten_labels 1 (fresh cautious)
    = stop (TooFewSamples 10 100) ten_rows
           (enter ten_rows 1 (fresh cautious)) /\
  train ten_rows ten_labels 1 (fresh demanding)
    = stop (GainBelowThreshold (2350 # 231)%Q 100%Q) ten_rows
           (enter ten_rows 1 (fresh demanding)) /\
  fst (stop (DepthReached 3) ten_rows (enter ten_rows 4 (fresh scenario)))
    = Return (Leaf (5 # 21)%Q) /\
  fst (train ten_rows ten_labels 1 (fresh shallow)) = Return stump.
Proof.
  split; [|split; [|split; [|split]]].
  - apply (proj1 (proj2 (train_stopping_rules ten_rows ten_labels 4
                           (fresh scenario) eq_refl eq_refl))).
    reflexivity.
  - apply (proj1 (proj2 (proj2 (train_stopping_rules ten_rows ten_labels 1
                                  (fresh cautious) eq_refl eq_refl))));
      [discriminate | reflexivity].
  - apply (proj1 (proj2 (proj2 (proj2
             (train_stopping_rules ten_rows ten_labels 1
                (fresh demanding) eq_refl eq_refl))))
             "f" 5%Q (2350 # 231)%Q);
      [discriminate | discriminate | vm_compute; reflexivity
       | vm_compute; reflexivity].
  - rewrite (proj1 (train_stopping_rules ten_rows ten_labels 4
                      (fresh scenario) eq_refl eq_refl) (DepthReached 3)).
    vm_compute. reflexivity.
  - erewrite (proj1 (proj2 (proj2 (proj2 (proj2
                (train_stopping_rules ten_rows ten_labels 1
                   (fresh shallow) eq_refl eq_refl)))))
                "f" 5%Q (2350 # 231)%Q);
      [reflexivity | discriminate | discriminate | vm_compute; reflexivity
       | vm_compute; reflexivity | cbv; reflexivity | cbv; reflexivity
       | cbv; reflexivity].
Defined.

(** The candidates of the ten rows at the root: one for each of the ten
    values of [f], each with its gain; the greatest is at [f = 5]. *)
Lemma gain_is_exact_witness :
  fst (candidates ten_rows (enter ten_rows 1 (fresh scenario)))
  = Return [("f", 1%Q, (138 # 133)%Q); ("f", 2%Q, (4448 # 1785)%Q);
            ("f", 3%Q, (458 # 105)%Q); ("f", 4%Q, (5584 # 819)%Q);
            ("f", 5%Q, (2350 # 231)%Q); ("f", 6%Q, (5416 # 819)%Q);
            ("f", 7%Q, (422 # 105)%Q); ("f", 8%Q, (3692 # 1785)%Q);
            ("f", 9%Q, (82 # 133)%Q); ("f", 10%Q, 0%Q)] /\
  left_sum ten_rows "f" "g" 4 = 5%Q /\
  left_sum ten_rows "f" "h" 4 = 10%Q /\
  sum (column ten_rows "g") = (-5)%Q /\
  sum (column ten_rows "h") = 20%Q.
Proof.
  destruct (gain_is_exact ten_rows 1 (fresh scenario) ["f"] eq_refl
              ten_rows_g ten_rows_h ten_rows_features)
    as (gain_ls & Hrun & Hlist & _ & _).
  split.
  - rewrite Hrun, Hlist. vm_compute. reflexivity.
  - repeat split; vm_compute; reflexivity.
Defined.

Lemma select_best_split_first_maximum_witness :
  exists i c,
    fst (select_best_split ten_rows (enter ten_rows 1 (fresh scenario)))
      = Return c /\
    first_maximum
      (recorded ten_rows (sum (column ten_rows "g"))
                (sum (column ten_rows "h")) 1%Q ["f"]) i c.
Proof.
  apply (proj2 (proj2 (proj2
           (select_best_split_first_maximum ten_rows 1 (fresh scenario) ["f"]
              eq_refl ten_rows_g ten_rows_h ten_rows_features)))).
  intros Hnil. vm_compute in Hnil. discriminate Hnil.
Defined.

Lemma degenerate_candidates_skipped_witness :
  fst (candidates ten_rows (enter ten_rows 1 (fresh scenario)))
    = Return (recorded ten_rows (sum (column ten_rows "g"))
                       (sum (column ten_rows "h")) 1%Q ["f"]) /\
  eqb (add (left_sum ten_rows "f" "h" 4) 1%Q) zero = false.
Proof.
  destruct (degenerate_candidates_skipped ten_rows 1 (fresh scenario) ["f"]
              eq_refl ten_rows_g ten_rows_h ten_rows_features)
    as (Hlist & Hnonzero).
  split; [exact Hlist|].
  apply (Hnonzero Q_Cancellative "f" 4%nat). vm_compute. reflexivity.
Defined.

Lemma empty_candidates_index_error_witness :
  fst (select_best_split no_feature (enter no_feature 1 (fresh scenario)))
    = Raise IndexError.
Proof.
  apply (empty_candidates_index_error no_feature
           (enter no_feature 1 (fresh scenario))).
  vm_compute. reflexivity.
Defined.

(** C4 as the specification states it fails on a frame without feature
    columns: the list of candidates is empty and what is raised is the
    IndexError of the access, from [select_best_split] and so from
    [train]; it is not a ConfigurationError. *)
Lemma empty_candidates_not_configuration_error :
  fst (candidates no_feature (enter no_feature 1 (fresh scenario)))
    = Return [] /\
  fst (select_best_split no_feature (enter no_feature 1 (fresh scenario)))
    = Raise IndexError /\
  (fst (select_best_split no_feature (enter no_feature 1 (fresh scenario)))
     = Raise ConfigurationError -> False) /\
  fst (train no_feature five_labels 1 (fresh scenario)) = Raise IndexError.
Proof.
  repeat split; try (vm_compute; reflexivity).
  vm_compute. discriminate.
Qed.

Lemma split_dataset_partition_witness :
  exists Xl yl Xr yr,
    split_dataset ten_rows ten_labels "f" 5%Q (fresh scenario)
      = (Return ((Xl, yl), (Xr, yr)), fresh scenario) /\
    rows Xl = filter (fun r => leb (nth 0 r zero) 5%Q) (rows ten_rows) /\
    rows Xr = filter (fun r => gtb (nth 0 r zero) 5%Q) (rows ten_rows) /\
    Permutation (rows Xl ++ rows Xr) (rows ten_rows) /\
    Permutation (yl ++ yr) ten_labels.
Proof.
  destruct (@split_dataset_partition Q Q_Numeric Q_TotalOrder ten_rows
              ten_labels "f" 5%Q 0%nat (fresh scenario) eq_refl eq_refl)
    as (Xl & yl & Xr & yr & Hrun & _ & _ & Hl & Hr & _ & _ & _ & Hp & Hy).
  exists Xl, yl, Xr, yr. repeat split; assumption.
Defined.

(** The scenario under depth limit 1 is one node on [f] at 5 over two
    leaves; its rows are predicted in order; its score is the mean of the
    squared predictions, the labels being 0; more fuel or another [gamma]
    changes nothing. *)
Example predict_stump :
  fst (predict to_predict {| self := set_tree stump shallow; logged := [] |})
  = Return [(-5 # 11)%Q; (10 # 11)%Q; (-5 # 11)%Q].
Proof. vm_compute. reflexivity. Qed.

Lemma score_is_mean_squared_error_witness :
  snd (score ten_rows ten_labels
             {| self := set_tree stump shallow; logged := [] |})
    = {| self := set_tree stump shallow; logged := [] |} /\
  fst (score ten_rows ten_labels
             {| self := set_tree stump shallow; logged := [] |})
    = Return (125 # 242)%Q.
Proof.
  destruct (score_is_mean_squared_error ten_rows ten_labels
              {| self := set_tree stump shallow; logged := [] |})
    as (Hworld & Hvalue).
  split; [exact Hworld|].
  rewrite (Hvalue (repeat (-5 # 11)%Q 5 ++ repeat (10 # 11)%Q 5)%list).
  - vm_compute. reflexivity.
  - reflexivity.
  - vm_compute. reflexivity.
Defined.

Lemma train_terminates_witness :
  train_rec 50 ten_rows ten_labels 1 (fresh scenario)
    = train ten_rows ten_labels 1 (fresh scenario) /\
  exists t, fst (train ten_rows ten_labels 1 (fresh scenario)) = Return t /\
            (height t <= 3)%nat.
Proof.
  destruct (train_terminates ten_rows ten_labels 1 (fresh scenario))
    as (_ & Hfuel & Hheight).
  split.
  - apply Hfuel. vm_compute. lia.
  - destruct (fst (train ten_rows ten_labels 1 (fresh scenario)))
      as [t| |] eqn:E; try (vm_compute in E; discriminate E).
    exists t. split; [reflexivity|]. apply (Hheight t). reflexivity.
Defined.

Example train_other_gamma :
  fst (train ten_rows ten_labels 1 (fresh (set_gamma 7%Q scenario)))
  = fst (train ten_rows ten_labels 1 (fresh scenario)).
Proof. vm_compute. reflexivity. Qed.



End Witnesses.

(* ================================================================== *)
(** * Further properties of the methods *)
(* ================================================================== *)

Section TrainInvariants.

Context {num : Type} {N : Numeric num}.

Local Opaque train_rec.

Lemma configuration_enter (X : DataFrame num) (depth : Z) (w : world num) :
  configuration (self (enter X depth w)) = configuration (self w).
Proof. unfold enter. simpl. destruct (depth =? 1)%Z; reflexivity. Qed.

Lemma names_enter (X : DataFrame num) (depth : Z) (w : world num) :
  (1 < depth)%Z ->
  self_feature_names (self (enter X depth w)) = self_feature_names (self w).
Proof.
  intros Hd. unfold enter. simpl.
  destruct (Z.eqb_spec depth 1); [lia | reflexivity].
Qed.

(** What a run of [train] leaves in the object: the configuration as it
    was; below the root the feature names as they were; and, when a tree
    is returned, that tree in [self.tree]. *)
Lemma train_rec_keeps (fuel : nat) :
  forall (X : DataFrame num) (y : list num) (depth : Z) (w : world num),
    configuration (self (snd (train_rec fuel X y depth w)))
      = configuration (self w) /\
    ((1 < depth)%Z ->
     self_feature_names (self (snd (train_rec fuel X y depth w)))
       = self_feature_names (self w)) /\
    (forall t, fst (train_rec fuel X y depth w) = Return t ->
               self_tree (self (snd (train_rec fuel X y depth w))) = Some t).
Proof.
  induction fuel as [|fuel IH]; intros X y depth w.
  { rewrite train_rec_O. cbn [fst snd]. repeat split. discriminate. }
  destruct (getitem X "g"%string) as [gs|e|] eqn:Hg;
    [| | exfalso; exact (getitem_total _ _ Hg)].
  2:{ rewrite (train_rec_no_g _ _ _ _ _ Hg). cbn [fst snd self].
      split; [destruct (depth =? 1)%Z; reflexivity|].
      split; [|discriminate].
      intros Hd. destruct (Z.eqb_spec depth 1); [lia | reflexivity]. }
  destruct (getitem X "h"%string) as [hs|e|] eqn:Hh;
    [| | exfalso; exact (getitem_total _ _ Hh)].
  2:{ rewrite (train_rec_no_h _ _ _ _ _ Hg Hh). cbn [fst snd self].
      split; [destruct (depth =? 1)%Z; reflexivity|].
      split; [|discriminate].
      intros Hd. destruct (Z.eqb_spec depth 1); [lia | reflexivity]. }
  rewrite (train_rec_step _ _ _ _ _ Hg Hh). cbn zeta.
  pose proof (configuration_enter X depth w) as Hc1.
  pose proof (names_enter X depth w) as Hn1.
  assert (Hstop : forall r,
            configuration (self (snd (stop r X (enter X depth w))))
              = configuration (self w) /\
            ((1 < depth)%Z ->
             self_feature_names (self (snd (stop r X (enter X depth w))))
               = self_feature_names (self w)) /\
            (forall t, fst (stop r X (enter X depth w)) = Return t ->
                       self_tree (self (snd (stop r X (enter X depth w))))
                         = Some t)).
  { intros r. unfold stop. cbn [fst snd self].
    split; [exact Hc1|]. split; [exact Hn1|].
    intros t [= <-]. reflexivity. }
  destruct (depth >? max_depth (self w))%Z; [apply Hstop|].
  destruct (Z.of_nat (shape0 X) <? min_samples_split (self w))%Z;
    [apply Hstop|].
  destruct (fst (select_best_split X (enter X depth w)))
    as [[[f v] gain]|e|]; cbn [fst snd];
    try (split; [exact Hc1|]; split; [exact Hn1 | discriminate]).
  destruct (ltb gain (split_threshold (self w))); [apply Hstop|].
  set (w2 := announce f v gain (enter X depth w)).
  assert (Hc2 : configuration (self w2) = configuration (self w))
    by exact Hc1.
  assert (Hn2 : (1 < depth)%Z ->
                self_feature_names (self w2) = self_feature_names (self w))
    by exact Hn1.
  destruct (fst (split_dataset X y f v w2)) as [[lh rh]|e|]; cbn [fst snd];
    try (split; [exact Hc2|]; split; [exact Hn2 | discriminate]).
  unfold bind.
  destruct (IH (fst lh) (snd lh) (depth + 1)%Z w2) as (Cl & Nl & _).
  destruct (train_rec fuel (fst lh) (snd lh) (depth + 1) w2) as [[l|e|] w3];
    cbn [fst snd] in *;
    try (split; [congruence|]; split; [|discriminate];
         intros Hd; rewrite Nl by lia; apply Hn2; exact Hd).
  destruct (IH (fst rh) (snd rh) (depth + 1)%Z w3) as (Cr & Nr & _).
  destruct (train_rec fuel (fst rh) (snd rh) (depth + 1) w3) as [[r|e|] w4];
    cbn [fst snd] in *;
    try (split; [congruence|]; split; [|discriminate];
         intros Hd; rewrite Nr, Nl by lia; apply Hn2; exact Hd).
  cbn [assign ret fst snd self]. split; [|split].
  - change (configuration (set_tree (node f v l r) (self w4)))
      with (configuration (self w4)). congruence.
  - intros Hd. cbn [set_tree self_feature_names].
    rewrite Nr, Nl by lia. apply Hn2. exact Hd.
  - intros t [= <-]. reflexivity.
Qed.

(** X1.  [train] never touches what [__init__] assigned: [max_depth],
    [min_samples_split], [split_threshold], [gamma] and [Lambda] are the
    same after the call as before, whether it returns or raises. *)
Theorem train_keeps_configuration (X : DataFrame num) (y : list num)
    (depth : Z) (w : world num) :
  configuration (self (snd (train X y depth w))) = configuration (self w).
Proof.
  unfold train.
  destruct (train_rec_keeps (calls_needed (max_depth (self w)) depth)
              X y depth w) as (Hc & _).
  exact Hc.
Qed.

(** X2.  The feature names are fixed by the root call and by it alone: after a
    call at depth 1, whatever its outcome, [self.feature_names] holds the
    columns of the frame but the last two; a call at a depth above 1
    leaves [self.feature_names] as it found it. *)
Theorem train_fixes_feature_names (X : DataFrame num) (y : list num)
    (w : world num) :
  self_feature_names (self (snd (train X y 1 w)))
    = Some (firstn (length (columns X) - 2) (columns X)) /\
  forall depth,
    (1 < depth)%Z ->
    self_feature_names (self (snd (train X y depth w)))
      = self_feature_names (self w).
Proof.
  split.
  - unfold train, calls_needed.
    set (fuel := Z.to_nat (max_depth (self w) + 1 - 1)).
    set (names := firstn (length (columns X) - 2) (columns X)).
    destruct (getitem X "g"%string) as [gs|e|] eqn:Hg;
      [| rewrite (train_rec_no_g _ _ _ _ _ Hg); reflexivity
       | exfalso; exact (getitem_total _ _ Hg)].
    destruct (getitem X "h"%string) as [hs|e|] eqn:Hh;
      [| rewrite (train_rec_no_h _ _ _ _ _ Hg Hh); reflexivity
       | exfalso; exact (getitem_total _ _ Hh)].
    rewrite (train_rec_step _ _ _ _ _ Hg Hh). cbn zeta.
    assert (Hn1 : self_feature_names (self (enter X 1 w)) = Some names)
      by reflexivity.
    assert (Hstop : forall r,
              self_feature_names (self (snd (stop r X (enter X 1 w))))
                = Some names) by (intros r; exact Hn1).
    destruct (1 >? max_depth (self w))%Z; [apply Hstop|].
    destruct (Z.of_nat (shape0 X) <? min_samples_split (self w))%Z;
      [apply Hstop|].
    destruct (fst (select_best_split X (enter X 1 w)))
      as [[[f v] gain]|e|]; cbn [fst snd]; try exact Hn1.
    destruct (ltb gain (split_threshold (self w))); [apply Hstop|].
    set (w2 := announce f v gain (enter X 1 w)).
    assert (Hn2 : self_feature_names (self w2) = Some names) by exact Hn1.
    destruct (fst (split_dataset X y f v w2)) as [[lh rh]|e|];
      cbn [fst snd]; try exact Hn2.
    unfold bind.
    destruct (train_rec_keeps fuel (fst lh) (snd lh) (1 + 1)%Z w2)
      as (_ & Nl & _).
    destruct (train_rec fuel (fst lh) (snd lh) (1 + 1) w2) as [[l|e|] w3];
      cbn [fst snd] in *; try (rewrite Nl by lia; exact Hn2).
    destruct (train_rec_keeps fuel (fst rh) (snd rh) (1 + 1)%Z w3)
      as (_ & Nr & _).
    destruct (train_rec fuel (fst rh) (snd rh) (1 + 1) w3) as [[r|e|] w4];
      cbn [fst snd] in *; try (rewrite Nr, Nl by lia; exact Hn2).
    cbn [assign ret fst snd self set_tree self_feature_names].
    rewrite Nr, Nl by lia. exact Hn2.
  - intros depth Hd. unfold train.
    destruct (train_rec_keeps (calls_needed (max_depth (self w)) depth)
                X y depth w) as (_ & Hn & _).
    apply Hn. exact Hd.
Qed.

(** X3.  The tree that [train] returns is the tree it leaves in [self.tree],
    the one that [predict] will read. *)
Theorem train_stores_its_result (X : DataFrame num) (y : list num)
    (depth : Z) (w : world num) (t : Tree num) :
  fst (train X y depth w) = Return t ->
  self_tree (self (snd (train X y depth w))) = Some t.
Proof.
  unfold train. intros Ht.
  destruct (train_rec_keeps (calls_needed (max_depth (self w)) depth)
              X y depth w) as (_ & _ & Hs).
  apply Hs. exact Ht.
Qed.

(** X4.  A frame without the column [g] or without the column [h] makes
    [train] raise KeyError at once, at any depth, beyond the depth limit
    too: the sums are taken before the first stopping rule. *)
Theorem train_needs_gradient_columns (X : DataFrame num) (y : list num)
    (depth : Z) (w : world num) :
  ~ In "g"%string (columns X) \/ ~ In "h"%string (columns X) ->
  fst (train X y depth w) = Raise KeyError.
Proof.
  intros Hmiss. unfold train, calls_needed.
  assert (Hnone : forall c, ~ In c (columns X) ->
                            getitem X c = Raise KeyError).
  { intros c Hc. unfold getitem.
    destruct (index_of c (columns X)) as [i|] eqn:Hi; [|reflexivity].
    exfalso. apply Hc. exact (index_of_Some_In _ _ _ Hi). }
  destruct (getitem X "g"%string) as [gs|e|] eqn:Hg;
    [| | exfalso; exact (getitem_total _ _ Hg)].
  - destruct Hmiss as [Hm|Hm].
    + rewrite (Hnone _ Hm) in Hg. discriminate.
    + rewrite (train_rec_no_h _ _ _ _ _ Hg (Hnone _ Hm)). reflexivity.
  - rewrite (train_rec_no_g _ _ _ _ _ Hg).
    unfold getitem in Hg.
    destruct (index_of "g" (columns X)); [discriminate|].
    injection Hg as <-. reflexivity.
Qed.

Local Transparent train_rec.

End TrainInvariants.

Section SplitFromData.

Context {num : Type} {N : Numeric num}.

Lemma for_each_invariant {A St : Type} (Inv : St -> Prop)
    (body : St -> A -> M num St) (l : list A) :
  (forall acc a w acc' w',
      In a l -> Inv acc -> body acc a w = (Return acc', w') -> Inv acc') ->
  forall acc w acc' w',
    Inv acc -> for_each l body acc w = (Return acc', w') -> Inv acc'.
Proof.
  induction l as [|a l IH]; intros Hbody acc w acc' w' Hinv; simpl.
  - unfold ret. intros [= <- _]. exact Hinv.
  - unfold bind. destruct (body acc a w) as [[acc1|e|] w1] eqn:Hb;
      try discriminate.
    intros Hrest. apply (IH (fun acc a w acc' w' Ha => Hbody acc a w acc' w'
                                                        (or_intror Ha))
                            acc1 w1 acc' w').
    + apply (Hbody acc a w acc1 w1); [left; reflexivity | exact Hinv | exact Hb].
    + exact Hrest.
Qed.

(** One turn of the inner loop records nothing, or one candidate made of
    the feature and the value of that turn. *)
Lemma value_step_records (X : DataFrame num) (f : string)
    (G_l H_l : num) (gain_ls : list (candidate num)) (v : num)
    (w w' : world num) (acc' : num * num * list (candidate num)) :
  value_step X f (G_l, H_l, gain_ls) v w = (Return acc', w') ->
  snd acc' = gain_ls \/ exists gain, snd acc' = gain_ls ++ [(f, v, gain)].
Proof.
  unfold value_step. run.
  destruct (getitem X f) as [col| |]; run; try discriminate.
  destruct (getitem (loc X (map (fun x => eqb x v) col)) "g"%string)
    as [gs| |]; run; try discriminate.
  destruct (getitem (loc X (map (fun x => eqb x v) col)) "h"%string)
    as [hs| |]; run; try discriminate.
  destruct (self_G (self w)) as [G|] eqn:HG; run; try discriminate.
  destruct (self_H (self w)) as [H|] eqn:HH; run; try discriminate.
  rewrite HH. run.
  match goal with |- context [guard ?a ?b ?c ?d] => destruct (guard a b c d) end;
    run.
  - rewrite HG. run. rewrite HH. run.
    intros [= <- _]. right. eexists. reflexivity.
  - intros [= <- _]. left. reflexivity.
Qed.

Lemma feature_step_from_data (X : DataFrame num)
    (gain_ls gain_ls' : list (candidate num)) (f : string)
    (w w' : world num) :
  Forall (from_data X) gain_ls ->
  feature_step X gain_ls f w = (Return gain_ls', w') ->
  Forall (from_data X) gain_ls'.
Proof.
  intros Hall. unfold feature_step. unfold bind at 1. unfold lift at 1.
  destruct (getitem X f) as [col| |] eqn:Hcol; try discriminate.
  unfold bind at 1.
  destruct (for_each (sort_values (drop_duplicates col)) (value_step X f)
                     (zero, zero, gain_ls) w) as [[acc|e|] w1] eqn:Hloop;
    try discriminate.
  unfold ret. intros [= <- _].
  apply (for_each_invariant (fun acc => Forall (from_data X) (snd acc))
           (value_step X f) (sort_values (drop_duplicates col)))
    with (acc := (zero, zero, gain_ls)) (w := w) (w' := w1);
    [| exact Hall | exact Hloop].
  intros [[G_l H_l] ls] v w0 acc0 w0' Hv Hinv Hstep. cbn [snd] in Hinv.
  destruct (value_step_records X f G_l H_l ls v w0 w0' acc0 Hstep)
    as [->|(gain & ->)]; [exact Hinv|].
  apply Forall_app. split; [exact Hinv|]. constructor; [|constructor].
  unfold from_data. cbn [fst snd]. split.
  - unfold getitem in Hcol.
    destruct (index_of f (columns X)) as [i|] eqn:Hi; [|discriminate].
    exact (index_of_Some_In _ _ _ Hi).
  - rewrite (column_getitem X f Hcol).
    apply (proj1 (sort_values_In _ _)) in Hv.
    exact (drop_duplicates_from_In [] col v Hv).
Qed.

Lemma candidates_from_data (X : DataFrame num) (w w' : world num)
    (gain_ls : list (candidate num)) :
  candidates X w = (Return gain_ls, w') -> Forall (from_data X) gain_ls.
Proof.
  unfold candidates, bind, attr.
  destruct (self_feature_names (self w)) as [names|]; try discriminate.
  intros Hloop.
  apply (for_each_invariant (Forall (from_data X)) (feature_step X) names)
    with (acc := []) (w := w) (w' := w'); [| constructor | exact Hloop].
  intros acc f w0 acc' w0' _ Hinv Hstep.
  exact (feature_step_from_data X acc acc' f w0 w0' Hinv Hstep).
Qed.

(** The loop on [best_index] stays inside the list. *)
Lemma best_index_loop_inside (gain_ls : list (candidate num)) :
  forall (range : list nat) (best : nat),
    (best < length gain_ls)%nat ->
    Forall (fun i => (i < length gain_ls)%nat) range ->
    exists b, best_index_loop gain_ls range best = Return b /\
              (b < length gain_ls)%nat.
Proof.
  induction range as [|i range IH]; intros best Hb Hr; simpl.
  - exists best. split; [reflexivity | exact Hb].
  - inversion Hr as [|? ? Hi Hrest]; subst. unfold list_get.
    destruct (nth_error gain_ls i) as [ci|] eqn:Ei;
      [|apply nth_error_None in Ei; lia].
    destruct (nth_error gain_ls best) as [cb|] eqn:Eb;
      [|apply nth_error_None in Eb; lia].
    cbn [obind]. destruct (gtb (gain_of ci) (gain_of cb)).
    + apply IH; assumption.
    + apply IH; assumption.
Qed.

Lemma pick_best_member (gain_ls : list (candidate num)) :
  gain_ls <> [] -> exists c, pick_best gain_ls = Return c /\ In c gain_ls.
Proof.
  intros Hne.
  destruct (best_index_loop_inside gain_ls (seq 0 (length gain_ls)) 0)
    as (b & Hloop & Hb).
  - destruct gain_ls; [congruence | simpl; lia].
  - apply Forall_forall. intros i Hi. apply in_seq in Hi. lia.
  - unfold pick_best. rewrite Hloop. cbn [obind]. unfold list_get.
    destruct (nth_error gain_ls b) as [c|] eqn:Ec;
      [|apply nth_error_None in Ec; lia].
    exists c. split; [reflexivity|]. exact (nth_error_In _ _ Ec).
Qed.

(** X5.  [select_best_split] fails on the empty list of candidates and on
    nothing else: once the list is built, it raises IndexError exactly
    when the list is empty, and otherwise returns one of its members,
    whatever the gains are (also when they do not compare). *)
Theorem select_best_split_picks_a_candidate (X : DataFrame num)
    (w : world num) (gain_ls : list (candidate num)) :
  fst (candidates X w) = Return gain_ls ->
  (gain_ls = [] -> fst (select_best_split X w) = Raise IndexError) /\
  (gain_ls <> [] ->
   exists c, fst (select_best_split X w) = Return c /\ In c gain_ls).
Proof.
  intros Hc.
  assert (Hrun : fst (select_best_split X w) = pick_best gain_ls).
  { unfold select_best_split, bind.
    rewrite (observes_run w (candidates_observes X)), Hc. reflexivity. }
  split.
  - intros ->. rewrite Hrun. reflexivity.
  - intros Hne. rewrite Hrun. apply pick_best_member. exact Hne.
Qed.

Lemma select_best_split_from_data_aux (X : DataFrame num) (w : world num)
    (c : candidate num) :
  fst (select_best_split X w) = Return c -> from_data X c.
Proof.
  unfold select_best_split, bind.
  rewrite (observes_run w (candidates_observes X)).
  destruct (fst (candidates X w)) as [gain_ls| |] eqn:Hc; try discriminate.
  cbn [lift fst]. intros Hp.
  assert (Hall : Forall (from_data X) gain_ls).
  { apply (candidates_from_data X w w gain_ls).
    rewrite (observes_run w (candidates_observes X)), Hc. reflexivity. }
  destruct gain_ls as [|c0 rest] eqn:E; [discriminate|].
  destruct (pick_best_member (c0 :: rest)) as (c' & Hp' & Hin);
    [discriminate|].
  rewrite Hp' in Hp. injection Hp as <-.
  rewrite Forall_forall in Hall. apply Hall. exact Hin.
Qed.

(** X6.  The split that [select_best_split] returns is taken from the data:
    its feature is a column of the frame and its threshold is a value
    that occurs in that column of the frame. *)
Theorem select_best_split_from_data (X : DataFrame num) (w : world num)
    (f : string) (v gain : num) :
  fst (select_best_split X w) = Return (f, v, gain) ->
  In f (columns X) /\ In v (column X f).
Proof.
  intros Hsel. exact (select_best_split_from_data_aux X w (f, v, gain) Hsel).
Qed.

Lemma left_half_rows (X : DataFrame num) (f : string) (v : num) :
  In f (columns X) ->
  rows (left_half X f v)
  = filter (fun r => negb (gtb (cell X f r) v)) (rows X) /\
  rows (right_half X f v)
  = filter (fun r => gtb (cell X f r) v) (rows X).
Proof.
  intros Hf. unfold left_half, right_half, right_mask. cbn [rows loc].
  rewrite (column_cells X f Hf), !map_map. split; apply select_map_filter.
Qed.

(** X7.  A split at a value of the column never sends every row right: when
    the value does not exceed itself, the left half holds at least the
    rows that carry the value.  So the left half of the split that
    [select_best_split] returns is never empty. *)
Theorem chosen_split_keeps_rows_left (X : DataFrame num) (w : world num)
    (f : string) (v gain : num) :
  fst (select_best_split X w) = Return (f, v, gain) ->
  ltb v v = false ->
  (0 < shape0 (left_half X f v))%nat /\
  (shape0 (left_half X f v) + shape0 (right_half X f v) = shape0 X)%nat.
Proof.
  intros Hsel Hirr.
  destruct (select_best_split_from_data_aux X w (f, v, gain) Hsel)
    as (Hf & Hv). cbn [fst snd] in Hf, Hv.
  destruct (left_half_rows X f v Hf) as (Hl & Hr).
  unfold shape0. rewrite Hl, Hr. split.
  - rewrite (column_cells X f Hf) in Hv. apply in_map_iff in Hv.
    destruct Hv as (r & Hcell & Hr').
    assert (Hin : In r (filter (fun r => negb (gtb (cell X f r) v))
                               (rows X))).
    { apply filter_In. split; [exact Hr'|].
      rewrite Hcell. unfold gtb. rewrite Hirr. reflexivity. }
    destruct (filter (fun r => negb (gtb (cell X f r) v)) (rows X));
      [contradiction | simpl; lia].
  - rewrite <- length_app.
    apply Permutation_length.
    apply (filter_split_permutation (fun r => gtb (cell X f r) v)).
Qed.

End SplitFromData.

Section TrainedTrees.

Context {num : Type} {N : Numeric num}.

Local Opaque train_rec.

(** Every tree that [train] returns is grown on the rows it was given. *)
Lemma train_rec_trained (fuel : nat) :
  forall (X : DataFrame num) (y : list num) (depth : Z) (w : world num)
         (t : Tree num),
    fst (train_rec fuel X y depth w) = Return t ->
    trained (Lambda (self w)) X t /\
    Lambda (self (snd (train_rec fuel X y depth w))) = Lambda (self w).
Proof.
  induction fuel as [|fuel IH]; intros X y depth w t;
    [rewrite train_rec_O; discriminate|].
  destruct (getitem X "g"%string) as [gs|e|] eqn:Hg;
    [| rewrite (train_rec_no_g _ _ _ _ _ Hg); discriminate
     | exfalso; exact (getitem_total _ _ Hg)].
  destruct (getitem X "h"%string) as [hs|e|] eqn:Hh;
    [| rewrite (train_rec_no_h _ _ _ _ _ Hg Hh); discriminate
     | exfalso; exact (getitem_total _ _ Hh)].
  rewrite (train_rec_step _ _ _ _ _ Hg Hh). cbn zeta.
  pose proof (Lambda_enter X depth w) as Hlam.
  assert (Hstop : forall r, fst (stop r X (enter X depth w)) = Return t ->
            trained (Lambda (self w)) X t /\
            Lambda (self (snd (stop r X (enter X depth w))))
              = Lambda (self w)).
  { intros r. unfold stop. cbn [fst snd self Lambda set_tree].
    rewrite Hlam. intros [= <-]. split; [constructor | reflexivity]. }
  destruct (depth >? max_depth (self w))%Z; [apply Hstop|].
  destruct (Z.of_nat (shape0 X) <? min_samples_split (self w))%Z;
    [apply Hstop|].
  destruct (fst (select_best_split X (enter X depth w)))
    as [[[f v] gain]|e|] eqn:Hsel; try discriminate.
  destruct (select_best_split_from_data_aux X _ _ Hsel) as (Hf & Hv).
  cbn [fst snd] in Hf, Hv.
  destruct (ltb gain (split_threshold (self w))); [apply Hstop|].
  set (w2 := announce f v gain (enter X depth w)).
  assert (Hw2 : Lambda (self w2) = Lambda (self w)) by exact Hlam.
  destruct (fst (split_dataset X y f v w2)) as [[lh rh]|e|] eqn:Hsp;
    try discriminate.
  destruct (split_dataset_halves X y f v w2 Hsp) as (Hl & Hr).
  unfold bind.
  pose proof (IH (fst lh) (snd lh) (depth + 1)%Z w2) as IHl.
  destruct (train_rec fuel (fst lh) (snd lh) (depth + 1) w2) as [[l|e|] w3];
    try discriminate.
  destruct (IHl l eq_refl) as (Fl & Ll). cbn [snd] in Ll.
  pose proof (IH (fst rh) (snd rh) (depth + 1)%Z w3) as IHr.
  destruct (train_rec fuel (fst rh) (snd rh) (depth + 1) w3) as [[r|e|] w4];
    try discriminate.
  destruct (IHr r eq_refl) as (Fr & Lr). cbn [snd] in Lr.
  cbn [assign ret fst snd self set_tree Lambda]. intros [= <-]. split.
  - constructor; [exact Hf | exact Hv | |].
    + rewrite <- Hl, <- Hw2. exact Fl.
    + rewrite <- Hr, <- Hw2, <- Ll. exact Fr.
  - congruence.
Qed.

(** X8.  Every node of a tree that [train] returns splits on a column of the
    frame at a value that occurs in that column among the rows that reach
    the node, under the keys [str(v) + "(l)"] and [str(v) + "(r)"]; every
    leaf holds [-G / (H + Lambda)] over the rows that reach it. *)
Theorem train_returns_trained (X : DataFrame num) (y : list num)
    (depth : Z) (w : world num) (t : Tree num) :
  fst (train X y depth w) = Return t -> trained (Lambda (self w)) X t.
Proof.
  unfold train. intros Ht.
  destruct (train_rec_trained _ X y depth w t Ht) as (Htr & _).
  exact Htr.
Qed.

Lemma index_of_lt (c : string) (cs : list string) (i : nat) :
  index_of c cs = Some i -> (i < length cs)%nat.
Proof.
  revert i. induction cs as [|c' cs IH]; simpl; intros i; [discriminate|].
  destruct (String.eqb c' c); [intros [= <-]; lia|].
  destruct (index_of c cs) as [j|]; [|discriminate].
  intros [= <-]. specialize (IH j eq_refl). lia.
Qed.

Lemma series_get_combine (c : string) (cs : list string) :
  forall (r : list num) (i : nat),
    index_of c cs = Some i -> (i < length r)%nat ->
    series_get (combine cs r) c = Return (nth i r zero).
Proof.
  induction cs as [|c' cs IH]; intros r i; simpl; [discriminate|].
  destruct r as [|a r]; [simpl; lia|]. cbn [combine series_get].
  destruct (String.eqb c' c); [intros [= <-] _; reflexivity|].
  destruct (index_of c cs) as [j|] eqn:Hj; [|discriminate].
  intros [= <-] Hlt. cbn [nth length] in *. apply (IH r j eq_refl). lia.
Qed.

(** The value a row of the frame presents for a column, as a Series. *)
Lemma series_get_row (X : DataFrame num) (f : string) (r : list num) :
  In f (columns X) -> length r = length (columns X) ->
  series_get (combine (columns X) r) f = Return (cell X f r) /\
  In (cell X f r) r.
Proof.
  intros Hf Hlen. destruct (index_of_In _ _ Hf) as (i & Hi).
  pose proof (index_of_lt _ _ _ Hi) as Hlt.
  unfold cell. rewrite Hi. split.
  - apply series_get_combine; [exact Hi | lia].
  - apply nth_In. lia.
Qed.

Lemma trained_routes (lam : num) (X : DataFrame num) (t : Tree num) :
  trained lam X t ->
  rectangular X ->
  (forall r, In r (rows X) -> Forall readable r) ->
  forall r, In r (rows X) ->
    exists X',
      columns X' = columns X /\ incl (rows X') (rows X) /\
      In r (rows X') /\
      reaches (combine (columns X) r) t (leaf_value X' lam).
Proof.
  intros Htr. induction Htr as [X|X f v l r0 Hf Hv _ IHl _ IHr];
    intros Hrect Hread r Hr.
  - exists X. split; [reflexivity|]. split; [apply incl_refl|].
    split; [exact Hr | constructor].
  - destruct (left_half_rows X f v Hf) as (Hlrows & Hrrows).
    assert (Hlen : length r = length (columns X)).
    { unfold rectangular in Hrect. rewrite Forall_forall in Hrect.
      apply Hrect. exact Hr. }
    destruct (series_get_row X f r Hf Hlen) as (Hget & _).
    assert (Hkey : threshold_of (to_str v ++ "(l)") = Some v).
    { rewrite (column_cells X f Hf) in Hv. apply in_map_iff in Hv.
      destruct Hv as (r' & Hcell & Hr').
      assert (Hlen' : length r' = length (columns X)).
      { unfold rectangular in Hrect. rewrite Forall_forall in Hrect.
        apply Hrect. exact Hr'. }
      destruct (series_get_row X f r' Hf Hlen') as (_ & Hin).
      rewrite Hcell in Hin.
      pose proof (Hread r' Hr') as Hall. rewrite Forall_forall in Hall.
      destruct (Hall v Hin) as (Hparse & Hparen).
      exact (trained_threshold v Hparse Hparen). }
    assert (Hsub : forall (p : list num -> bool),
               rectangular {| columns := columns X;
                              rows := filter p (rows X) |} /\
               (forall r', In r' (filter p (rows X)) -> Forall readable r')).
    { intros p. split.
      - unfold rectangular in *. cbn [rows columns].
        rewrite Forall_forall in *. intros r' Hr'.
        apply filter_In in Hr'. apply Hrect. apply Hr'.
      - intros r' Hr'. apply filter_In in Hr'. apply Hread. apply Hr'. }
    destruct (gtb (cell X f r) v) eqn:Hgt.
    + assert (Hin : In r (rows (right_half X f v))).
      { rewrite Hrrows. apply filter_In. split; assumption. }
      destruct (IHr) with (r := r) as (X' & Hcols & Hincl & Hr' & Hreach).
      * unfold rectangular. rewrite Hrrows.
        apply (proj1 (Hsub (fun r => gtb (cell X f r) v))).
      * rewrite Hrrows.
        apply (proj2 (Hsub (fun r => gtb (cell X f r) v))).
      * exact Hin.
      * exists X'. split; [exact Hcols|]. split; [|split; [exact Hr'|]].
        -- intros a Ha. apply Hincl in Ha. rewrite Hrrows in Ha.
           apply filter_In in Ha. apply Ha.
        -- unfold node. eapply reaches_right; eauto.
    + assert (Hin : In r (rows (left_half X f v))).
      { rewrite Hlrows. apply filter_In. split; [exact Hr|].
        rewrite Hgt. reflexivity. }
      destruct (IHl) with (r := r) as (X' & Hcols & Hincl & Hr' & Hreach).
      * unfold rectangular. rewrite Hlrows.
        apply (proj1 (Hsub (fun r => negb (gtb (cell X f r) v)))).
      * rewrite Hlrows.
        apply (proj2 (Hsub (fun r => negb (gtb (cell X f r) v)))).
      * exact Hin.
      * exists X'. split; [exact Hcols|]. split; [|split; [exact Hr'|]].
        -- intros a Ha. apply Hincl in Ha. rewrite Hlrows in Ha.
           apply filter_In in Ha. apply Ha.
        -- unfold node. eapply reaches_left; eauto.
Qed.

Lemma predict_rows_all (cols : list string) (t : Tree num)
    (Q : list num -> num -> Prop) (rs : list (list num)) :
  (forall r, In r rs ->
             exists v, reaches (combine cols r) t v /\
                       is_float v = true /\ Q r v) ->
  exists vs, predict_rows cols t rs = Return vs /\ Forall2 Q rs vs.
Proof.
  induction rs as [|r rs IH]; intros Hall.
  - exists []. split; [reflexivity | constructor].
  - destruct (Hall r (or_introl eq_refl)) as (v & Hreach & Hfl & Hq).
    destruct IH as (vs & Hvs & Hf2).
    { intros r' Hr'. apply Hall. right. exact Hr'. }
    exists (v :: vs). split; [|constructor; assumption].
    cbn [predict_rows].
    rewrite (proj2 (single_predict_in_reaches _ _ _) (conj Hreach Hfl)), Hvs.
    reflexivity.
Qed.

(** X9.  Training, then predicting the training frame, on a frame whose
    rows have one cell per column and whose values [str] writes and
    [float] reads back, once [train] has returned.  When a division gives
    a Python float (cells of dtype float64, or integers), [predict] on the
    same frame returns one value for each row, in order, without raising;
    and the value for a row is [-G / (H + Lambda)] over a set of rows of
    the frame that contains this row: the rows that went with it to its
    leaf.  When a division gives a scalar that is no Python float (cells
    of dtype float32), [predict] on the same frame, if it has a row,
    raises AttributeError: the leaves that [train] has stored fail the
    test [isinstance(tree, float)]. *)
Theorem train_then_predict (X : DataFrame num) (y : list num) (depth : Z)
    (w : world num) (t : Tree num) :
  fst (train X y depth w) = Return t ->
  rectangular X ->
  (forall r, In r (rows X) -> Forall readable r) ->
  ((forall a b, is_float (div a b) = true) ->
   exists vs,
     predict X (snd (train X y depth w))
       = (Return vs, snd (train X y depth w)) /\
     Forall2 (fun r v =>
                exists X', columns X' = columns X /\
                           incl (rows X') (rows X) /\ In r (rows X') /\
                           v = leaf_value X' (Lambda (self w)))
             (rows X) vs) /\
  ((forall a b, is_float (div a b) = false) ->
   rows X <> [] ->
   predict X (snd (train X y depth w))
     = (Raise AttributeError, snd (train X y depth w))).
Proof.
  intros Ht Hrect Hread.
  assert (Hstored : self_tree (self (snd (train X y depth w))) = Some t).
  { unfold train in *.
    destruct (train_rec_keeps (calls_needed (max_depth (self w)) depth)
                X y depth w) as (_ & _ & Hs).
    apply Hs. exact Ht. }
  assert (Htr : trained (Lambda (self w)) X t).
  { unfold train in Ht.
    destruct (train_rec_trained _ X y depth w t Ht) as (Htr & _).
    exact Htr. }
  rewrite (predict_closed X t _ Hstored). split.
  - intros Hfloat.
    destruct (predict_rows_all (columns X) t
                (fun r v => exists X', columns X' = columns X /\
                              incl (rows X') (rows X) /\ In r (rows X') /\
                              v = leaf_value X' (Lambda (self w)))
                (rows X)) as (vs & Hvs & Hf2).
    + intros r Hr.
      destruct (trained_routes _ X t Htr Hrect Hread r Hr)
        as (X' & Hcols & Hincl & Hr' & Hreach).
      exists (leaf_value X' (Lambda (self w))). split; [exact Hreach|].
      split; [apply Hfloat|].
      exists X'. repeat split; assumption.
    + exists vs. rewrite Hvs. split; [reflexivity | exact Hf2].
  - intros Hother Hrows.
    pose proof (trained_routes _ X t Htr Hrect Hread) as Hroutes.
    destruct (rows X) as [|r rs]; [contradiction|].
    destruct (Hroutes r (or_introl eq_refl)) as (X' & _ & _ & _ & Hreach).
    cbn [predict_rows].
    rewrite (single_predict_in_at_leaf _ _ _ Hreach).
    unfold leaf_value. rewrite Hother. reflexivity.
Qed.

Local Transparent train_rec.

End TrainedTrees.

Section Independence.

Context {num : Type} {N : Numeric num}.

Local Opaque train_rec.

Lemma select_length {A B : Type} (mask : list bool) :
  forall (y : list A) (y' : list B),
    length y = length y' ->
    length (select mask y) = length (select mask y').
Proof.
  induction mask as [|b mask IH]; intros [|a y] [|a' y'] Hlen;
    simpl in *; try reflexivity; try discriminate.
  injection Hlen as Hlen. destruct b; simpl; rewrite (IH y y' Hlen);
    reflexivity.
Qed.

(** With labels of the same length, [split_dataset] fails the same way or
    cuts the same two frames, with label halves of the same lengths. *)
Lemma split_dataset_labels (X : DataFrame num) (y y' : list num)
    (f : string) (v : num) (w : world num) :
  length y = length y' ->
  match fst (split_dataset X y f v w), fst (split_dataset X y' f v w) with
  | Return (lh, rh), Return (lh', rh') =>
      fst lh = fst lh' /\ fst rh = fst rh' /\
      length (snd lh) = length (snd lh') /\
      length (snd rh) = length (snd rh')
  | Raise e, Raise e' => e = e'
  | _, _ => False
  end.
Proof.
  intros Hlen. unfold split_dataset. run.
  destruct (getitem X f) as [col|e|] eqn:Hcol; run;
    [| reflexivity | exact (getitem_total _ _ Hcol)].
  unfold take. rewrite !length_map, <- Hlen.
  destruct (Nat.eqb (length col) (length y)); run; [|reflexivity].
  repeat split; apply select_length; exact Hlen.
Qed.

Lemma train_rec_labels (fuel : nat) :
  forall (X : DataFrame num) (y y' : list num) (depth : Z) (w : world num),
    length y = length y' ->
    train_rec fuel X y depth w = train_rec fuel X y' depth w.
Proof.
  induction fuel as [|fuel IH]; intros X y y' depth w Hlen;
    [rewrite !train_rec_O; reflexivity|].
  destruct (getitem X "g"%string) as [gs|e|] eqn:Hg;
    [| rewrite !(train_rec_no_g _ _ _ _ _ Hg); reflexivity
     | exfalso; exact (getitem_total _ _ Hg)].
  destruct (getitem X "h"%string) as [hs|e|] eqn:Hh;
    [| rewrite !(train_rec_no_h _ _ _ _ _ Hg Hh); reflexivity
     | exfalso; exact (getitem_total _ _ Hh)].
  rewrite !(train_rec_step _ _ _ _ _ Hg Hh). cbn zeta.
  destruct (depth >? max_depth (self w))%Z; [reflexivity|].
  destruct (Z.of_nat (shape0 X) <? min_samples_split (self w))%Z;
    [reflexivity|].
  destruct (fst (select_best_split X (enter X depth w)))
    as [[[f v] gain]|e|]; try reflexivity.
  destruct (ltb gain (split_threshold (self w))); [reflexivity|].
  set (w2 := announce f v gain (enter X depth w)).
  pose proof (split_dataset_labels X y y' f v w2 Hlen) as Hsp.
  destruct (fst (split_dataset X y f v w2)) as [[lh rh]|e|];
    destruct (fst (split_dataset X y' f v w2)) as [[lh' rh']|e'|];
    try contradiction; [|congruence].
  destruct Hsp as (Hl & Hr & Hyl & Hyr). unfold bind.
  rewrite <- Hl, <- Hr.
  rewrite (IH (fst lh) (snd lh) (snd lh') (depth + 1)%Z w2 Hyl).
  destruct (train_rec fuel (fst lh) (snd lh') (depth + 1) w2)
    as [[l|e|] w3]; try reflexivity.
  rewrite (IH (fst rh) (snd rh) (snd rh') (depth + 1)%Z w3 Hyr).
  reflexivity.
Qed.

(** X10.  The labels never reach the tree.  Two runs of [train] that differ only
    in the label vector, the two vectors having the same length, have the
    same outcome, leave the same object and write the same log: of [y] the
    method uses the length alone, when [split_dataset] cuts it. *)
Theorem train_ignores_labels (X : DataFrame num) (y y' : list num)
    (depth : Z) (w : world num) :
  length y = length y' ->
  train X y depth w = train X y' depth w.
Proof.
  intros Hlen. unfold train. apply train_rec_labels. exact Hlen.
Qed.

Lemma same_but_tree_view (w w' : world num) :
  same_but_tree (self w) (self w') -> split_view w' = split_view w.
Proof.
  unfold same_but_tree, configuration, split_view.
  intros (Hc & Hn & HG & HH). injection Hc as _ _ _ _ Hl. congruence.
Qed.

Lemma same_but_tree_set (t : Tree num) (o o' : BaseTree num) :
  same_but_tree o o' -> set_tree t o = set_tree t o'.
Proof.
  unfold same_but_tree, configuration. destruct o, o'. cbn.
  intros (Hc & Hn & HG & HH). injection Hc as -> -> -> -> ->.
  subst. reflexivity.
Qed.

Lemma same_but_tree_enter (X : DataFrame num) (depth : Z)
    (w w' : world num) :
  configuration (self w) = configuration (self w') ->
  depth = 1%Z \/ self_feature_names (self w) = self_feature_names (self w') ->
  same_but_tree (self (enter X depth w)) (self (enter X depth w')).
Proof.
  intros Hc Hn. unfold same_but_tree, enter. cbn [self].
  destruct (Z.eqb_spec depth 1) as [E|E]; cbn.
  - repeat split. exact Hc.
  - destruct Hn as [Hn|Hn]; [contradiction|]. repeat split; assumption.
Qed.

Lemma train_rec_history (fuel : nat) :
  forall (X : DataFrame num) (y : list num) (depth : Z) (w w' : world num),
    configuration (self w) = configuration (self w') ->
    depth = 1%Z \/
      self_feature_names (self w) = self_feature_names (self w') ->
    fst (train_rec fuel X y depth w) = fst (train_rec fuel X y depth w') /\
    (forall t, fst (train_rec fuel X y depth w) = Return t ->
               self (snd (train_rec fuel X y depth w))
               = self (snd (train_rec fuel X y depth w'))).
Proof.
  induction fuel as [|fuel IH]; intros X y depth w w' Hc Hn.
  { rewrite !train_rec_O. split; [reflexivity | discriminate]. }
  destruct (getitem X "g"%string) as [gs|e|] eqn:Hg;
    [| rewrite !(train_rec_no_g _ _ _ _ _ Hg);
       split; [reflexivity | discriminate]
     | exfalso; exact (getitem_total _ _ Hg)].
  destruct (getitem X "h"%string) as [hs|e|] eqn:Hh;
    [| rewrite !(train_rec_no_h _ _ _ _ _ Hg Hh);
       split; [reflexivity | discriminate]
     | exfalso; exact (getitem_total _ _ Hh)].
  rewrite !(train_rec_step _ _ _ _ _ Hg Hh). cbn zeta.
  pose proof (same_but_tree_enter X depth w w' Hc Hn) as Hs1.
  assert (Hlam : Lambda (self (enter X depth w))
                 = Lambda (self (enter X depth w'))).
  { destruct Hs1 as (Hc1 & _). unfold configuration in Hc1.
    injection Hc1 as _ _ _ _ Hl. exact Hl. }
  assert (Hstop : forall r r',
            fst (stop r X (enter X depth w))
              = fst (stop r' X (enter X depth w')) /\
            (forall t, fst (stop r X (enter X depth w)) = Return t ->
                       self (snd (stop r X (enter X depth w)))
                       = self (snd (stop r' X (enter X depth w'))))).
  { intros r r'. unfold stop. cbn [fst snd self]. rewrite <- Hlam.
    split; [reflexivity|]. intros _ _.
    apply same_but_tree_set. exact Hs1. }
  unfold configuration in Hc. injection Hc as Hmd Hms Hst Hgm Hl.
  rewrite <- Hmd, <- Hms, <- Hst.
  destruct (depth >? max_depth (self w))%Z; [apply Hstop|].
  destruct (Z.of_nat (shape0 X) <? min_samples_split (self w))%Z;
    [apply Hstop|].
  pose proof (select_best_split_observes X (enter X depth w))
    as (_ & _ & Hsel).
  rewrite (Hsel (enter X depth w') (same_but_tree_view _ _ Hs1)).
  destruct (fst (select_best_split X (enter X depth w)))
    as [[[f v] gain]|e|]; cbn [fst snd];
    try (split; [reflexivity | discriminate]).
  destruct (ltb gain (split_threshold (self w))); [apply Hstop|].
  set (w2 := announce f v gain (enter X depth w)).
  set (w2' := announce f v gain (enter X depth w')).
  assert (Hs2 : same_but_tree (self w2) (self w2')) by exact Hs1.
  pose proof (split_dataset_observes X y f v w2) as (_ & _ & Hsp).
  rewrite (Hsp w2' (same_but_tree_view _ _ Hs2)).
  destruct (fst (split_dataset X y f v w2)) as [[lh rh]|e|];
    cbn [fst snd]; try (split; [reflexivity | discriminate]).
  unfold bind.
  destruct (IH (fst lh) (snd lh) (depth + 1)%Z w2 w2'
              (proj1 Hs2) (or_intror (proj1 (proj2 Hs2)))) as (E1 & S1).
  destruct (train_rec fuel (fst lh) (snd lh) (depth + 1) w2) as [o1 w3].
  destruct (train_rec fuel (fst lh) (snd lh) (depth + 1) w2') as [o1' w3'].
  cbn [fst snd] in E1, S1. subst o1'.
  destruct o1 as [l|e|]; cbn [fst snd];
    try (split; [reflexivity | discriminate]).
  specialize (S1 l eq_refl).
  destruct (IH (fst rh) (snd rh) (depth + 1)%Z w3 w3'
              (f_equal configuration S1)
              (or_intror (f_equal self_feature_names S1))) as (E2 & S2).
  destruct (train_rec fuel (fst rh) (snd rh) (depth + 1) w3) as [o2 w4].
  destruct (train_rec fuel (fst rh) (snd rh) (depth + 1) w3') as [o2' w4'].
  cbn [fst snd] in E2, S2. subst o2'.
  destruct o2 as [r|e|]; cbn [fst snd];
    try (split; [reflexivity | discriminate]).
  specialize (S2 r eq_refl).
  cbn [assign ret fst snd self]. split; [reflexivity|].
  intros _ _. rewrite S2. reflexivity.
Qed.

(** X11.  Training again starts from scratch.  A root call of [train] depends on
    the object through its five configuration attributes only: whatever an
    earlier run left in [feature_names], [G], [H] and [tree], and whatever
    the log holds, the outcome is the same, and when a tree is returned
    the object is left in the same state, attribute for attribute. *)
Theorem train_forgets_history (X : DataFrame num) (y : list num)
    (w w' : world num) :
  configuration (self w) = configuration (self w') ->
  fst (train X y 1 w) = fst (train X y 1 w') /\
  (forall t, fst (train X y 1 w) = Return t ->
             self (snd (train X y 1 w)) = self (snd (train X y 1 w'))).
Proof.
  intros Hc. unfold train.
  assert (Hmd : max_depth (self w') = max_depth (self w)).
  { unfold configuration in Hc. injection Hc as Hmd _ _ _ _.
    symmetry. exact Hmd. }
  rewrite Hmd.
  apply train_rec_history; [exact Hc | left; reflexivity].
Qed.

Local Transparent train_rec.

End Independence.

Section EdgeCases.

Context {num : Type} {N : Numeric num}.

Local Opaque train_rec.

Lemma getitem_missing (X : DataFrame num) (c : string) :
  ~ In c (columns X) -> getitem X c = Raise KeyError.
Proof.
  intros Hc. unfold getitem.
  destruct (index_of c (columns X)) as [i|] eqn:Hi; [|reflexivity].
  exfalso. apply Hc. exact (index_of_Some_In _ _ _ Hi).
Qed.

Lemma column_of_no_rows (X : DataFrame num) (c : string) :
  rows X = [] -> column X c = [].
Proof.
  intros Hrows. unfold column, getitem.
  destruct (index_of c (columns X)); [|reflexivity].
  rewrite Hrows. reflexivity.
Qed.

Lemma recorded_of_no_rows (X : DataFrame num) (G H lam : num)
    (names : list string) :
  rows X = [] -> recorded X G H lam names = [].
Proof.
  intros Hrows. unfold recorded.
  induction names as [|f names IH]; [reflexivity|].
  cbn [flat_map]. rewrite IH. unfold recorded_of, values_of.
  rewrite (column_of_no_rows X f Hrows). reflexivity.
Qed.

Lemma firstn_incl {A : Type} (n : nat) (l : list A) :
  Forall (fun a => In a l) (firstn n l).
Proof.
  apply Forall_forall. intros a Ha.
  rewrite <- (firstn_skipn n l). apply in_or_app. left. exact Ha.
Qed.

(** X12.  [train] on a frame without rows.  With the columns [g] and [h]
    present, a root call returns the leaf [-0 / (0 + Lambda)] when a
    stopping rule fires before the search (the depth limit is below 1, or
    [min_samples_split] is positive); otherwise the search records no
    candidate and the call raises the IndexError of [gain_ls[best_index]]. *)
Theorem train_on_empty_frame (X : DataFrame num) (y : list num)
    (w : world num) :
  rows X = [] ->
  In "g"%string (columns X) -> In "h"%string (columns X) ->
  fst (train X y 1 w)
  = if ((1 >? max_depth (self w)) || (0 <? min_samples_split (self w)))%Z
    then Return (Leaf (div (neg zero) (add zero (Lambda (self w)))))
    else Raise IndexError.
Proof.
  intros Hrows Hg Hh. unfold train, calls_needed.
  rewrite (train_rec_step _ _ _ _ _ (getitem_In X _ Hg) (getitem_In X _ Hh)).
  cbn zeta.
  assert (Hstop : forall r,
            fst (stop r X (enter X 1 w))
            = Return (Leaf (div (neg zero) (add zero (Lambda (self w)))))).
  { intros r. unfold stop, leaf_value. cbn [fst].
    rewrite !(column_of_no_rows X _ Hrows). reflexivity. }
  unfold shape0. rewrite Hrows. cbn [length Z.of_nat].
  destruct (1 >? max_depth (self w))%Z; [apply Hstop|].
  destruct (0 <? min_samples_split (self w))%Z; [apply Hstop|].
  cbn [orb].
  unfold select_best_split, bind.
  rewrite (candidates_entered X 1 w
             (firstn (length (columns X) - 2) (columns X))
             eq_refl Hg Hh (firstn_incl _ _)).
  rewrite (recorded_of_no_rows X _ _ _ _ Hrows). reflexivity.
Qed.

(** X13.  [split_dataset] as it behaves for any values, comparable or not.  A
    feature that is no column raises KeyError; a label vector whose length
    is not the number of rows raises IndexError; otherwise the right half
    holds the rows whose value is [>] the threshold, the left half holds
    all the others (a value that compares with nothing goes left), in the
    order of the input, and the sizes of the two halves add up to the size
    of the frame. *)
Theorem split_dataset_cases (X : DataFrame num) (y : list num)
    (f : string) (v : num) (w : world num) :
  (~ In f (columns X) -> fst (split_dataset X y f v w) = Raise KeyError) /\
  (In f (columns X) -> length y <> shape0 X ->
   fst (split_dataset X y f v w) = Raise IndexError) /\
  (In f (columns X) -> length y = shape0 X ->
   split_dataset X y f v w
   = (Return ((left_half X f v, select (map negb (right_mask X f v)) y),
              (right_half X f v, select (right_mask X f v) y)), w) /\
   rows (right_half X f v) = filter (fun r => gtb (cell X f r) v) (rows X) /\
   rows (left_half X f v)
   = filter (fun r => negb (gtb (cell X f r) v)) (rows X) /\
   (shape0 (left_half X f v) + shape0 (right_half X f v) = shape0 X)%nat).
Proof.
  assert (Hmask : In f (columns X) ->
                  length (right_mask X f v) = shape0 X).
  { intros Hf. unfold right_mask, shape0.
    rewrite (column_cells X f Hf), !length_map. reflexivity. }
  split; [|split].
  - intros Hf. unfold split_dataset. run.
    rewrite (getitem_missing X f Hf). reflexivity.
  - intros Hf Hlen. unfold split_dataset. run.
    rewrite (getitem_In X f Hf). run. unfold take.
    fold (right_mask X f v). rewrite length_map, (Hmask Hf).
    destruct (Nat.eqb_spec (shape0 X) (length y)) as [E|E];
      [exfalso; apply Hlen; symmetry; exact E | reflexivity].
  - intros Hf Hlen. destruct (left_half_rows X f v Hf) as (Hl & Hr).
    split; [|split; [exact Hr | split; [exact Hl|]]].
    + unfold split_dataset. run. rewrite (getitem_In X f Hf). run.
      unfold take. fold (right_mask X f v).
      rewrite length_map, (Hmask Hf), <- Hlen, Nat.eqb_refl. run.
      reflexivity.
    + unfold shape0. rewrite Hl, Hr.
      rewrite <- length_app.
      apply Permutation_length.
      apply (filter_split_permutation (fun r => gtb (cell X f r) v)).
Qed.

(** X14.  An object that [__init__] has just built holds no model: for any
    configuration, [select_best_split] raises AttributeError (there are no
    feature names), [single_predict] without a tree raises AttributeError,
    [predict] and [score] raise AttributeError on a frame with a row, and
    [predict] returns the empty array on a frame without rows.  None of
    them changes the object. *)
Theorem fresh_object_has_no_model (md mss : Z) (st gm lam : num)
    (log : list (log_record num)) (X : DataFrame num) (y : list num)
    (x : Series num) :
  let w := {| self := init md mss st gm lam; logged := log |} in
  select_best_split X w = (Raise AttributeError, w) /\
  single_predict x None w = (Raise AttributeError, w) /\
  (rows X = [] -> predict X w = (Return [], w)) /\
  (rows X <> [] ->
   predict X w = (Raise AttributeError, w) /\
   score X y w = (Raise AttributeError, w)).
Proof.
  intros w. split; [reflexivity|]. split; [reflexivity|].
  assert (Hp : rows X <> [] -> predict X w = (Raise AttributeError, w)).
  { intros Hrows. unfold predict, shape0.
    destruct (rows X) as [|r rs] eqn:Hr; [contradiction|].
    cbn [length seq for_each]. unfold bind at 1. unfold bind at 1.
    unfold lift at 1, iloc. rewrite Hr. reflexivity. }
  split.
  - intros Hrows. unfold predict, shape0. rewrite Hrows. reflexivity.
  - intros Hrows. split; [exact (Hp Hrows)|].
    unfold score, bind. rewrite (Hp Hrows). reflexivity.
Qed.

Lemma series_get_raises (x : Series num) (name : string) (e : exn) :
  series_get x name = Raise e -> e = KeyError.
Proof.
  induction x as [|[c a] x IH]; simpl; [congruence|].
  destruct (String.eqb c name); [discriminate | exact IH].
Qed.

Lemma single_predict_in_complete (x : Series num) (t : Tree num) :
  complete x t -> exists v, single_predict_in x t = Return v.
Proof.
  induction t as [a|f lkey l IHl rkey r IHr]; cbn [complete single_predict_in].
  - intros Hfl. exists a. rewrite Hfl. reflexivity.
  - intros ((xv & Hx) & (threshold & Ht) & Hl & Hr).
    unfold threshold_of in Ht. rewrite Hx. cbn [obind]. rewrite Ht.
    destruct (gtb xv threshold); [apply IHr | apply IHl]; assumption.
Qed.

Lemma single_predict_in_raises (x : Series num) (t : Tree num) (e : exn) :
  single_predict_in x t = Raise e ->
  e = KeyError \/ e = ValueError \/ e = AttributeError.
Proof.
  induction t as [a|f lkey l IHl rkey r IHr]; cbn [single_predict_in].
  { destruct (is_float a); [discriminate|]. intros [= <-]. auto. }
  destruct (series_get x f) as [xv|e'|] eqn:Hx; cbn [obind];
    [| intros [= <-]; left; exact (series_get_raises _ _ _ Hx)
     | discriminate].
  destruct (of_str (before_paren lkey)) as [threshold|];
    [| intros [= <-]; right; left; reflexivity].
  destruct (gtb xv threshold); assumption.
Qed.

(** X15.  [single_predict] on a tree that is passed, or stored.  When
    the row has a value for every feature of the tree, every left key
    reads as a number and every leaf is a Python float, the call returns a
    value and changes nothing.  When it raises, the exception is the
    KeyError of [x[feature_name]], the ValueError of [float(split_value)]
    or the AttributeError of [tree.keys()] on a leaf that is no Python
    float, and the row, a key or a leaf falls short of that condition. *)
Theorem single_predict_on_complete_rows (x : Series num) (t : Tree num)
    (w : world num) :
  (complete x t ->
   exists v,
     single_predict x (Some t) w = (Return v, w) /\
     (self_tree (self w) = Some t ->
      single_predict x None w = (Return v, w))) /\
  (forall e, fst (single_predict x (Some t) w) = Raise e ->
             (e = KeyError \/ e = ValueError \/ e = AttributeError) /\
             ~ complete x t).
Proof.
  split.
  - intros Hc. destruct (single_predict_in_complete x t Hc) as (v & Hv).
    exists v. unfold single_predict, bind, ret, lift, attr.
    rewrite Hv. split; [reflexivity|]. intros Ht. rewrite Ht, Hv.
    reflexivity.
  - unfold single_predict, bind, ret, lift. cbn [fst]. intros e He. split.
    + exact (single_predict_in_raises x t e He).
    + intros Hc. destruct (single_predict_in_complete x t Hc) as (v & Hv).
      congruence.
Qed.

(** X16.  The methods that only ask leave the object and the log as they are,
    whether they return or raise: [select_best_split], [split_dataset],
    [single_predict] and [predict] assign no attribute and log nothing. *)
Theorem queries_change_nothing (X : DataFrame num) (y : list num)
    (f : string) (v : num) (x : Series num) (tree : option (Tree num))
    (w : world num) :
  snd (select_best_split X w) = w /\
  snd (split_dataset X y f v w) = w /\
  snd (single_predict x tree w) = w /\
  snd (predict X w) = w.
Proof.
  split; [exact (proj1 (select_best_split_observes X w))|].
  split; [exact (proj1 (split_dataset_observes X y f v w))|].
  split; [exact (proj1 (single_predict_observes x tree w))|].
  exact (proj1 (predict_observes X w)).
Qed.

Local Transparent train_rec.

End EdgeCases.

Section SideEffects.

Context {num : Type} {N : Numeric num}.

Local Opaque train_rec.

Lemma train_rec_log (fuel : nat) :
  forall (X : DataFrame num) (y : list num) (depth : Z) (w : world num),
    exists records,
      logged (snd (train_rec fuel X y depth w)) = (logged w ++ records)%list /\
      forall t, fst (train_rec fuel X y depth w) = Return t ->
                length records = (leaves t + 2 * splits t)%nat.
Proof.
  induction fuel as [|fuel IH]; intros X y depth w.
  { rewrite train_rec_O. exists []. cbn [fst snd].
    split; [symmetry; apply app_nil_r | discriminate]. }
  assert (Hnone : forall (o : outcome (Tree num)) (w' : world num),
            logged w' = logged w -> (forall t, o <> Return t) ->
            exists records,
              logged (snd (o, w')) = (logged w ++ records)%list /\
              forall t, fst (o, w') = Return t ->
                        length records = (leaves t + 2 * splits t)%nat).
  { intros o w' Hlog Ho. exists []. cbn [fst snd]. rewrite Hlog.
    split; [symmetry; apply app_nil_r|].
    intros t Ht. exfalso. exact (Ho t Ht). }
  destruct (getitem X "g"%string) as [gs|e|] eqn:Hg;
    [| rewrite (train_rec_no_g _ _ _ _ _ Hg);
       apply Hnone; [reflexivity | discriminate]
     | exfalso; exact (getitem_total _ _ Hg)].
  destruct (getitem X "h"%string) as [hs|e|] eqn:Hh;
    [| rewrite (train_rec_no_h _ _ _ _ _ Hg Hh);
       apply Hnone; [reflexivity | discriminate]
     | exfalso; exact (getitem_total _ _ Hh)].
  rewrite (train_rec_step _ _ _ _ _ Hg Hh). cbn zeta.
  assert (Hstop : forall r,
            exists records,
              logged (snd (stop r X (enter X depth w)))
                = (logged w ++ records)%list /\
              forall t, fst (stop r X (enter X depth w)) = Return t ->
                        length records = (leaves t + 2 * splits t)%nat).
  { intros r. exists [r]. unfold stop. cbn [fst snd logged enter].
    split; [reflexivity|]. intros t [= <-]. reflexivity. }
  destruct (depth >? max_depth (self w))%Z; [apply Hstop|].
  destruct (Z.of_nat (shape0 X) <? min_samples_split (self w))%Z;
    [apply Hstop|].
  destruct (fst (select_best_split X (enter X depth w)))
    as [[[f v] gain]|e|];
    try (apply Hnone; [reflexivity | discriminate]).
  destruct (ltb gain (split_threshold (self w))); [apply Hstop|].
  set (w2 := announce f v gain (enter X depth w)).
  set (two := [BestSplit f v gain;
               LossReduction (sub (mul (div (of_Z 1) (of_Z 2)) gain)
                                  (gamma (self (enter X depth w))))]).
  assert (Hw2 : logged w2 = (logged w ++ two)%list) by reflexivity.
  clearbody w2.
  destruct (fst (split_dataset X y f v w2)) as [[lh rh]|e|];
    try (exists two; cbn [fst snd]; split; [exact Hw2 | discriminate]).
  unfold bind.
  destruct (IH (fst lh) (snd lh) (depth + 1)%Z w2) as (rl & Ll & Cl).
  destruct (train_rec fuel (fst lh) (snd lh) (depth + 1) w2) as [[l|e|] w3];
    cbn [fst snd] in *;
    try (exists (two ++ rl)%list; rewrite Ll, Hw2, app_assoc;
         split; [reflexivity | discriminate]).
  destruct (IH (fst rh) (snd rh) (depth + 1)%Z w3) as (rr & Lr & Cr).
  destruct (train_rec fuel (fst rh) (snd rh) (depth + 1) w3) as [[r|e|] w4];
    cbn [fst snd] in *;
    try (exists (two ++ rl ++ rr)%list; rewrite Lr, Ll, Hw2, !app_assoc;
         split; [reflexivity | discriminate]).
  exists (two ++ rl ++ rr)%list. cbn [assign ret fst snd logged].
  rewrite Lr, Ll, Hw2, !app_assoc. split; [reflexivity|].
  intros t [= <-]. rewrite !length_app, (Cl l eq_refl), (Cr r eq_refl).
  unfold node, two. cbn [leaves splits length]. lia.
Qed.

(** X17.  [train] only adds to the log, whether it returns or raises; and when
    it returns a tree, it has added one record for every leaf (the rule
    that stopped there) and two for every inner node (the split and its
    loss reduction). *)
Theorem train_log_records (X : DataFrame num) (y : list num) (depth : Z)
    (w : world num) :
  exists records,
    logged (snd (train X y depth w)) = (logged w ++ records)%list /\
    forall t, fst (train X y depth w) = Return t ->
              length records = (leaves t + 2 * splits t)%nat.
Proof. unfold train. apply train_rec_log. Qed.

Lemma train_rec_sums (fuel : nat) :
  forall (X : DataFrame num) (y : list num) (depth : Z) (w : world num)
         (t : Tree num),
    fst (train_rec fuel X y depth w) = Return t ->
    exists G H,
      self_G (self (snd (train_rec fuel X y depth w))) = Some G /\
      self_H (self (snd (train_rec fuel X y depth w))) = Some H /\
      rightmost t = div (neg G) (add H (Lambda (self w))).
Proof.
  induction fuel as [|fuel IH]; intros X y depth w t;
    [rewrite train_rec_O; discriminate|].
  destruct (getitem X "g"%string) as [gs|e|] eqn:Hg;
    [| rewrite (train_rec_no_g _ _ _ _ _ Hg); discriminate
     | exfalso; exact (getitem_total _ _ Hg)].
  destruct (getitem X "h"%string) as [hs|e|] eqn:Hh;
    [| rewrite (train_rec_no_h _ _ _ _ _ Hg Hh); discriminate
     | exfalso; exact (getitem_total _ _ Hh)].
  rewrite (train_rec_step _ _ _ _ _ Hg Hh). cbn zeta.
  destruct (enter_attributes X depth w) as (HG & HH & Hlam).
  assert (Hstop : forall r, fst (stop r X (enter X depth w)) = Return t ->
            exists G H,
              self_G (self (snd (stop r X (enter X depth w)))) = Some G /\
              self_H (self (snd (stop r X (enter X depth w)))) = Some H /\
              rightmost t = div (neg G) (add H (Lambda (self w)))).
  { intros r. unfold stop. rewrite Hlam.
    cbn [fst snd self set_tree self_G self_H].
    intros [= <-]. exists (sum (column X "g"%string)),
                          (sum (column X "h"%string)).
    split; [exact HG|]. split; [exact HH|]. reflexivity. }
  destruct (depth >? max_depth (self w))%Z; [apply Hstop|].
  destruct (Z.of_nat (shape0 X) <? min_samples_split (self w))%Z;
    [apply Hstop|].
  destruct (fst (select_best_split X (enter X depth w)))
    as [[[f v] gain]|e|]; try discriminate.
  destruct (ltb gain (split_threshold (self w))); [apply Hstop|].
  set (w2 := announce f v gain (enter X depth w)).
  assert (Hw2 : Lambda (self w2) = Lambda (self w)) by exact Hlam.
  clearbody w2.
  destruct (fst (split_dataset X y f v w2)) as [[lh rh]|e|];
    try discriminate.
  unfold bind.
  destruct (train_rec_keeps fuel (fst lh) (snd lh) (depth + 1)%Z w2)
    as (Cl & _ & _).
  destruct (train_rec fuel (fst lh) (snd lh) (depth + 1) w2) as [[l|e|] w3];
    try discriminate.
  cbn [snd] in Cl.
  assert (Hw3 : Lambda (self w3) = Lambda (self w)).
  { unfold configuration in Cl. injection Cl as _ _ _ _ Hl. congruence. }
  pose proof (IH (fst rh) (snd rh) (depth + 1)%Z w3) as IHr.
  destruct (train_rec fuel (fst rh) (snd rh) (depth + 1) w3) as [[r|e|] w4];
    try discriminate.
  destruct (IHr r eq_refl) as (G & H & HG4 & HH4 & Hr). cbn [snd] in *.
  cbn [assign ret fst snd self set_tree self_G self_H].
  intros [= <-]. exists G, H. split; [exact HG4|]. split; [exact HH4|].
  unfold node. cbn [rightmost]. rewrite Hr, Hw3. reflexivity.
Qed.

(** X18.  The sums that [train] leaves in the object are those of its last call,
    not of the frame it was given: once a tree is returned, [self.G] and
    [self.H] are set, and [-G / (H + Lambda)] over them is the value of
    the last leaf of the tree, the one at the end of the right branches. *)
Theorem train_leaves_last_sums (X : DataFrame num) (y : list num)
    (depth : Z) (w : world num) (t : Tree num) :
  fst (train X y depth w) = Return t ->
  exists G H,
    self_G (self (snd (train X y depth w))) = Some G /\
    self_H (self (snd (train X y depth w))) = Some H /\
    rightmost t = div (neg G) (add H (Lambda (self w))).
Proof. unfold train. apply train_rec_sums. Qed.

Local Transparent train_rec.

End SideEffects.

(* ================================================================== *)
(** * The further properties on the ten rows *)
(* ================================================================== *)

Section FurtherWitnesses.

Import Qnum.

Local Open Scope string_scope.

(** Under depth limit 1 the ten rows give the stump, and the search at
    the root picks the split at [f = 5]. *)
Lemma train_shallow : fst (train ten_rows ten_labels 1 (fresh shallow))
                      = Return stump.
Proof. vm_compute. reflexivity. Defined.

Lemma best_of_ten_rows :
  fst (select_best_split ten_rows (enter ten_rows 1 (fresh scenario)))
  = Return ("f", 5%Q, (2350 # 231)%Q).
Proof. vm_compute. reflexivity. Defined.

Lemma train_stores_its_result_witness :
  fst (train ten_rows ten_labels 1 (fresh shallow)) = Return stump /\
  self_tree (self (snd (train ten_rows ten_labels 1 (fresh shallow))))
    = Some stump.
Proof.
  split; [exact train_shallow|].
  apply (train_stores_its_result ten_rows ten_labels 1 (fresh shallow) stump).
  exact train_shallow.
Defined.

Lemma train_needs_gradient_columns_witness :
  (~ In "g" (columns no_gradient) \/ ~ In "h" (columns no_gradient)) /\
  fst (train no_gradient [0%Q; 0%Q] 1 (fresh scenario)) = Raise KeyError /\
  fst (train no_gradient [0%Q; 0%Q] 9 (fresh scenario)) = Raise KeyError.
Proof.
  assert (H : ~ In "g" (columns no_gradient) \/
              ~ In "h" (columns no_gradient)).
  { left. simpl. intros [E|[E|E]]; [discriminate E | discriminate E | exact E]. }
  split; [exact H|]. split.
  - apply (train_needs_gradient_columns no_gradient [0%Q; 0%Q] 1
             (fresh scenario) H).
  - apply (train_needs_gradient_columns no_gradient [0%Q; 0%Q] 9
             (fresh scenario) H).
Defined.

Lemma train_on_empty_frame_witness :
  fst (train no_rows [] 1 (fresh scenario)) = Return (Leaf 0%Q) /\
  fst (train no_rows [] 1 (fresh (init 3 0 0%Q 0%Q 1%Q))) = Raise IndexError.
Proof.
  assert (Hg : In "g" (columns no_rows)) by (simpl; auto).
  assert (Hh : In "h" (columns no_rows)) by (simpl; auto).
  split.
  - rewrite (train_on_empty_frame no_rows [] (fresh scenario) eq_refl Hg Hh).
    vm_compute. reflexivity.
  - rewrite (train_on_empty_frame no_rows [] (fresh (init 3 0 0%Q 0%Q 1%Q))
               eq_refl Hg Hh).
    vm_compute. reflexivity.
Defined.

Lemma select_best_split_picks_a_candidate_witness :
  exists c,
    fst (select_best_split ten_rows (enter ten_rows 1 (fresh scenario)))
      = Return c /\
    In c (recorded ten_rows (sum (column ten_rows "g"))
                   (sum (column ten_rows "h")) 1%Q ["f"]).
Proof.
  assert (Hrun : fst (candidates ten_rows (enter ten_rows 1 (fresh scenario)))
                 = Return (recorded ten_rows (sum (column ten_rows "g"))
                                    (sum (column ten_rows "h")) 1%Q ["f"])).
  { vm_compute. reflexivity. }
  apply (proj2 (select_best_split_picks_a_candidate ten_rows
                  (enter ten_rows 1 (fresh scenario)) _ Hrun)).
  intros Hnil. vm_compute in Hnil. discriminate Hnil.
Defined.

Lemma select_best_split_from_data_witness :
  fst (select_best_split ten_rows (enter ten_rows 1 (fresh scenario)))
    = Return ("f", 5%Q, (2350 # 231)%Q) /\
  In "f" (columns ten_rows) /\ In 5%Q (column ten_rows "f").
Proof.
  split; [exact best_of_ten_rows|].
  exact (select_best_split_from_data ten_rows
           (enter ten_rows 1 (fresh scenario)) "f" 5%Q (2350 # 231)%Q
           best_of_ten_rows).
Defined.

Lemma chosen_split_keeps_rows_left_witness :
  (0 < shape0 (left_half ten_rows "f" 5%Q))%nat /\
  (shape0 (left_half ten_rows "f" 5%Q) + shape0 (right_half ten_rows "f" 5%Q)
   = shape0 ten_rows)%nat.
Proof.
  exact (chosen_split_keeps_rows_left ten_rows
           (enter ten_rows 1 (fresh scenario)) "f" 5%Q (2350 # 231)%Q
           best_of_ten_rows eq_refl).
Defined.

Lemma train_returns_trained_witness : trained 1%Q ten_rows stump.
Proof.
  exact (train_returns_trained ten_rows ten_labels 1 (fresh shallow) stump
           train_shallow).
Defined.

Lemma ten_rows_rectangular : rectangular ten_rows.
Proof. unfold rectangular. simpl. repeat constructor. Defined.

Lemma ten_rows_readable :
  forall r, In r (rows ten_rows) -> Forall readable r.
Proof.
  intros r Hr. simpl in Hr.
  repeat (destruct Hr as [<-|Hr]); [..|contradiction];
    repeat (apply Forall_cons || apply Forall_nil);
    split; vm_compute; reflexivity.
Defined.

(** The same run on cells of dtype float32. *)
Lemma train_shallow32 :
  fst (@train Q Q32_Numeric ten_rows ten_labels 1 (fresh shallow))
  = Return stump.
Proof. vm_compute. reflexivity. Defined.

Lemma ten_rows_readable32 :
  forall r, In r (rows ten_rows) -> Forall (@readable Q Q32_Numeric) r.
Proof.
  intros r Hr. simpl in Hr.
  repeat (destruct Hr as [<-|Hr]); [..|contradiction];
    repeat (apply Forall_cons || apply Forall_nil);
    split; vm_compute; reflexivity.
Defined.

Lemma train_then_predict_witness :
  (exists vs,
     predict ten_rows (snd (train ten_rows ten_labels 1 (fresh shallow)))
       = (Return vs, snd (train ten_rows ten_labels 1 (fresh shallow))) /\
     Forall2 (fun r v =>
                exists X', columns X' = columns ten_rows /\
                           incl (rows X') (rows ten_rows) /\
                           In r (rows X') /\ v = leaf_value X' 1%Q)
             (rows ten_rows) vs) /\
  @predict Q Q32_Numeric ten_rows
    (snd (@train Q Q32_Numeric ten_rows ten_labels 1 (fresh shallow)))
  = (Raise AttributeError,
     snd (@train Q Q32_Numeric ten_rows ten_labels 1 (fresh shallow))).
Proof.
  split.
  - exact (proj1 (train_then_predict ten_rows ten_labels 1 (fresh shallow)
                    stump train_shallow ten_rows_rectangular
                    ten_rows_readable)
                 (fun _ _ => eq_refl)).
  - apply (proj2 (@train_then_predict Q Q32_Numeric ten_rows ten_labels 1
                    (fresh shallow) stump train_shallow32
                    ten_rows_rectangular ten_rows_readable32)
                 (fun _ _ => eq_refl)).
    intros Hnil. vm_compute in Hnil. discriminate Hnil.
Defined.

Lemma train_ignores_labels_witness :
  train ten_rows ten_labels 1 (fresh shallow)
  = train ten_rows other_labels 1 (fresh shallow).
Proof.
  apply (train_ignores_labels ten_rows ten_labels other_labels 1
           (fresh shallow)).
  reflexivity.
Defined.

Lemma train_forgets_history_witness :
  fst (train ten_rows ten_labels 1 used) = Return stump /\
  self (snd (train ten_rows ten_labels 1 used))
    = self (snd (train ten_rows ten_labels 1 (fresh shallow))).
Proof.
  destruct (train_forgets_history ten_rows ten_labels (fresh shallow) used
              eq_refl) as (Hout & Hself).
  split.
  - rewrite <- Hout. exact train_shallow.
  - symmetry. apply (Hself stump). exact train_shallow.
Defined.

Lemma train_leaves_last_sums_witness :
  exists G H,
    self_G (self (snd (train ten_rows ten_labels 1 (fresh shallow))))
      = Some G /\
    self_H (self (snd (train ten_rows ten_labels 1 (fresh shallow))))
      = Some H /\
    (10 # 11)%Q = div (neg G) (add H 1%Q).
Proof.
  exact (train_leaves_last_sums ten_rows ten_labels 1 (fresh shallow) stump
           train_shallow).
Defined.

End FurtherWitnesses.
